(** * wagtailtinymce: the editor-to-database sanitizer and the widget adapter

    A shallow embedding of [wagtailtinymce/rich_text.py] and of the rule
    registration of [wagtailtinymce/wagtail_hooks.py].

    The program mutates a BeautifulSoup tree in place.  A tree has no sharing
    besides the parent/child links, and every mutation the sanitizer performs
    on a node touches that node or the position the node occupies in the
    contents of its parent.  The embedding therefore makes the sanitizer
    return an [outcome]: what became of the node at its position.  The two
    ways of walking over the children (over a snapshot of the contents, over
    the live list) are written out as such. *)

From Stdlib Require Import String Ascii List ZArith Bool Lia.
From stdpp Require Import base option list strings gmap.

Local Open Scope string_scope.
Local Open Scope list_scope.

(** ** Python dictionaries

    A [dict] keeps its keys in insertion order, and the order of the
    attributes of an element is the order in which they are serialized; a
    dictionary is an association list whose keys are distinct. *)

Module Dict.

Definition t (V : Type) : Type := list (string * V).

Section Ops.
Context {V : Type}.

(** [d.get(k)] *)
Fixpoint get (k : string) (d : t V) : option V :=
  match d with
  | [] => None
  | (k', v) :: d' => if String.eqb k k' then Some v else get k d'
  end.

(** [k in d] *)
Definition contains (k : string) (d : t V) : bool :=
  match get k d with Some _ => true | None => false end.

(** [d[k] = v]: the value is replaced where the key stands, a new key
    goes to the end. *)
Fixpoint set (k : string) (v : V) (d : t V) : t V :=
  match d with
  | [] => [(k, v)]
  | (k', v') :: d' =>
      if String.eqb k k' then (k', v) :: d' else (k', v') :: set k v d'
  end.

End Ops.

End Dict.

(** ** The document tree (BeautifulSoup)

    [Comment] is the subclass of [NavigableString] the sanitizer tests for;
    the other string subclasses behave as [NavigableString]. *)

Abbreviation attributes := (Dict.t string).

#[warnings="-register-all"]
Inductive node : Type :=
| NavigableString (text : string)
| Comment (text : string)
| Tag (name : string) (attrs : attributes) (can_be_empty_element : bool)
      (contents : list node).

(** What a call of [clean_node] did to the node it was called on. *)
Inductive outcome : Type :=
| Kept (n : node)            (* still in place, possibly mutated *)
| Removed                    (* [extract()] or [decompose()] *)
| ReplacedWith (n : node)    (* [replace_with(n)] *)
| Unwrapped (cs : list node) (* [unwrap()]: its contents take its place *).

(** The nodes found, after the call, where the node stood in the contents
    of its parent. *)
Definition splice (o : outcome) : list node :=
  match o with
  | Kept n => [n]
  | Removed => []
  | ReplacedWith n => [n]
  | Unwrapped cs => cs
  end.

(** The number of nodes of a tree; it bounds the work of the sanitizer. *)
Fixpoint node_size (n : node) : nat :=
  match n with
  | NavigableString _ => 1
  | Comment _ => 1
  | Tag _ _ _ cs => S (list_sum (map node_size cs))
  end.

Definition size_list (l : list node) : nat := list_sum (map node_size l).

(** ** The whitelisting library (wagtail.core.whitelist)

    Modelled from the spec: the generic whitelisting engine the repository
    subclasses ([Whitelister], [attribute_rule], [allow_without_attributes])
    is library code outside this repository.  It follows section 4.2, step
    3, of the specification: children are sanitized first, over a snapshot of
    the contents; a tag without a rule is unwrapped; a tag with a rule is
    kept and its attributes go through the rule. *)

(** The value an attribute name is mapped to in the argument of
    [attribute_rule]: [True] keeps the attribute, a callable rewrites its
    value or drops it by returning [None]. *)
Inductive attr_rule : Type :=
| KeepAttr
| Callable (f : string -> option string).

(** Modelled from the spec: [attribute_rule(allowed_attrs)], the rule that
    keeps the attributes named in [allowed_attrs] and deletes the others. *)
Definition attribute_rule (allowed_attrs : Dict.t attr_rule)
    (attrs : attributes) : attributes :=
  omap (fun '(attr, val) =>
          match Dict.get attr allowed_attrs with
          | Some KeepAttr => Some (attr, val)
          | Some (Callable f) =>
              match f val with
              | Some new_val => Some (attr, new_val)
              | None => None
              end
          | None => None
          end) attrs.

(** Modelled from the spec: [allow_without_attributes = attribute_rule({})]. *)
Definition allow_without_attributes : attributes -> attributes :=
  attribute_rule [].

(** ** Converter rules (wagtail.admin.rich_text.converters.editor_html)

    A handler is known to the sanitizer by its [get_db_attributes], which
    reads the tag and returns a fresh dictionary. *)
Inductive Rule : Type :=
| WhitelistRule (element : string) (handler : attributes -> attributes)
| EmbedTypeRule (embed_type : string) (handler : node -> attributes)
| LinkTypeRule (link_type : string) (handler : node -> attributes).

(** The state of a [DbTinymceWhitelister] instance. *)
Record DbTinymceWhitelister : Type := {
  element_rules : gmap string (attributes -> attributes);
  embed_handlers : gmap string (node -> attributes);
  link_handlers : gmap string (node -> attributes)
}.

(** Modelled from the spec: the rules that are active whatever the features
    ([BASE_WHITELIST_RULES]). *)
Definition BASE_WHITELIST_RULES : gmap string (attributes -> attributes) :=
  <["[document]" := allow_without_attributes]>
    (<["p" := allow_without_attributes]>
       (<["div" := allow_without_attributes]>
          (<["br" := allow_without_attributes]> ∅))).

(** Modelled from the spec: [DbWhitelister.__init__] and its cached
    properties [embed_handlers] and [link_handlers]; a later rule for a key
    replaces an earlier one. *)
Definition DbWhitelister_init (converter_rules : list Rule)
    : DbTinymceWhitelister :=
  {| element_rules :=
       foldl (fun m r => match r with
                         | WhitelistRule element handler => <[element := handler]> m
                         | _ => m
                         end) BASE_WHITELIST_RULES converter_rules;
     embed_handlers :=
       foldl (fun m r => match r with
                         | EmbedTypeRule embed_type handler => <[embed_type := handler]> m
                         | _ => m
                         end) ∅ converter_rules;
     link_handlers :=
       foldl (fun m r => match r with
                         | LinkTypeRule link_type handler => <[link_type := handler]> m
                         | _ => m
                         end) ∅ converter_rules |}.

(** ** Walking over the children *)

(** [for child in list(tag.contents): step(child)]: every child of the
    snapshot is visited once, where it stands. *)
Fixpoint iterate_snapshot (step : node -> option outcome)
    (contents : list node) : option (list node) :=
  match contents with
  | [] => Some []
  | child :: rest =>
      o ← step child;
      rest' ← iterate_snapshot step rest;
      Some (splice o ++ rest')
  end.

(** [for child in tag.contents: step(child)]: the iterator of a Python list
    holds an index into the live list.  It yields the element at the index
    and moves on by one, whatever [step] did to the list, and stops when the
    index reaches the current length.  [gas] bounds the number of rounds. *)
Fixpoint iterate_live (step : node -> option outcome) (gas : nat)
    (i : nat) (contents : list node) : option (list node) :=
  match contents !! i with
  | None => Some contents
  | Some child =>
      match gas with
      | 0 => None
      | S gas' =>
          o ← step child;
          iterate_live step gas' (S i)
            (take i contents ++ splice o ++ drop (S i) contents)
      end
  end.

(** ** The sanitizer *)

Section Sanitizer.

Variable self : DbTinymceWhitelister.

(** Modelled from the spec: [Whitelister.clean_tag_node], reached through
    [super(DbWhitelister, self)], which skips [DbWhitelister]. *)
Definition Whitelister_clean_tag_node
    (clean_node : node -> option outcome)
    (name : string) (attrs : attributes) (e : bool) (contents : list node)
    : option outcome :=
  contents' ← iterate_snapshot clean_node contents;
  match element_rules self !! name with
  | None => Some (Unwrapped contents')
  | Some rule => Some (Kept (Tag name (rule attrs) e contents'))
  end.

(** [DbTinymceWhitelister.clean_tag_node]; [clean_node] is [self.clean_node]
    and [gas] bounds the walk over the live contents. *)
Definition clean_tag_node (clean_node : node -> option outcome) (gas : nat)
    (name : string) (attrs : attributes) (e : bool) (contents : list node)
    : option outcome :=
  let tag := Tag name attrs e contents in
  match Dict.get "data-embedtype" attrs with
  | Some embed_type =>
      match embed_handlers self !! embed_type with
      | None => Some Removed
      | Some embed_handler =>
          let embed_attrs :=
            Dict.set "embedtype" embed_type (embed_handler tag) in
          Some (ReplacedWith (Tag "embed" embed_attrs true []))
      end
  | None =>
      match String.eqb name "a", Dict.get "data-linktype" attrs with
      | true, Some link_type =>
          contents' ← iterate_live clean_node gas 0 contents;
          match link_handlers self !! link_type with
          | None => Some (Unwrapped contents')
          | Some link_handler =>
              let link_attrs :=
                Dict.set "linktype" link_type
                  (link_handler (Tag name attrs e contents')) in
              Some (Kept (Tag name link_attrs e contents'))
          end
      | _, _ =>
          let name' := if String.eqb name "div" then "p" else name in
          Whitelister_clean_tag_node clean_node name' attrs e contents
      end
  end.

(** Modelled from the spec: [Whitelister.clean_node] and
    [clean_string_node]; comments are extracted, other strings stay.
    [fuel] bounds the depth of the recursion and the length of each live
    walk. *)
Fixpoint clean_node (fuel : nat) (n : node) : option outcome :=
  match fuel with
  | 0 => None
  | S fuel' =>
      match n with
      | NavigableString _ => Some (Kept n)
      | Comment _ => Some Removed
      | Tag name attrs e contents =>
          clean_tag_node (clean_node fuel') fuel' name attrs e contents
      end
  end.

(** What [clean] returns or raises once the document is parsed. *)
Inductive cleaned : Type :=
| Cleaned (contents : list node)
| ValueError.

(** Modelled from the spec: [Whitelister.clean], between the parser and
    the serializer: [self.clean_node(doc, doc)] on the document object,
    whose name is [[document]] and which has no attribute and no parent;
    unwrapping it raises. *)
Definition clean_document (doc : list node) : option cleaned :=
  let root := Tag "[document]" [] false doc in
  o ← clean_node (node_size root) root;
  Some (match o with
        | Kept (Tag _ _ _ contents) => Cleaned contents
        | _ => ValueError
        end).

End Sanitizer.

(** ** The rules of the repository (wagtail_hooks.py) *)

Section Registry.

(** Library values the registration refers to: the URL check of the
    whitelisting library, the page link handler, and the rule lists of the
    image and document applications. *)
Variable check_url : string -> option string.
Variable PageLinkHandler : node -> attributes.
Variable EditorHTMLImageConversionRule : list Rule.
Variable EditorHTMLDocumentLinkConversionRule : list Rule.

(** The default features of the registry, to which the registration
    appends its own four. *)
Variable get_default_features : list string.

Definition ALLOWED_ATTR : Dict.t attr_rule :=
  map (fun k => (k, KeepAttr))
    ["border"; "cellpadding"; "cellspacing"; "style"; "width"; "colspan";
     "margin-left"; "margin-right"; "height"; "border-color"; "text-align";
     "background-color"; "vertical-align"; "scope"; "font-family";
     "rowspan"; "valign"; "class"].

Definition default_attribute_rule : attributes -> attributes :=
  attribute_rule ALLOWED_ATTR.

(** [register_tinymce_features]: the rule list registered for the
    converter [tinymceeditorhtml] under each feature name, in the order of
    registration. *)
Definition register_tinymce_features : Dict.t (list Rule) :=
  [ ("link", [WhitelistRule "a" (attribute_rule [("href", Callable check_url)]);
              LinkTypeRule "page" PageLinkHandler]);
    ("bold", [WhitelistRule "b" allow_without_attributes;
              WhitelistRule "strong" allow_without_attributes]);
    ("br", [WhitelistRule "br" allow_without_attributes]);
    ("div", [WhitelistRule "div" allow_without_attributes]);
    ("italic", [WhitelistRule "i" allow_without_attributes;
                WhitelistRule "em" allow_without_attributes]) ]
  ++ map (fun element =>
            (element, [WhitelistRule element allow_without_attributes]))
       ["h1"; "h2"; "h3"; "h4"; "h5"; "h6"]
  ++ [ ("hr", [WhitelistRule "hr" allow_without_attributes]);
       ("ol", [WhitelistRule "ol" allow_without_attributes;
               WhitelistRule "li" allow_without_attributes]);
       ("ul", [WhitelistRule "ul" allow_without_attributes;
               WhitelistRule "li" allow_without_attributes]);
       ("p", [WhitelistRule "p" allow_without_attributes]);
       ("subscripts", [WhitelistRule "sub" allow_without_attributes;
                       WhitelistRule "sup" allow_without_attributes]);
       ("blockquote", [WhitelistRule "blockquote" allow_without_attributes]);
       ("code", [WhitelistRule "pre" allow_without_attributes;
                 WhitelistRule "code" allow_without_attributes]);
       ("table", map (fun element => WhitelistRule element default_attribute_rule)
                   ["table"; "caption"; "tbody"; "th"; "tr"; "td"]);
       ("image", EditorHTMLImageConversionRule);
       ("document-link", EditorHTMLDocumentLinkConversionRule) ].

(** What the registration leaves in [features.default_features]. *)
Definition default_features : list string :=
  get_default_features ++ ["subscripts"; "blockquote"; "code"; "table"].

(** [feature_registry.get_converter_rule('tinymceeditorhtml', feature)] *)
Definition get_converter_rule (feature : string) : option (list Rule) :=
  Dict.get feature register_tinymce_features.

(** [EditorTinymceHTMLConverter.__init__]: the field [converter_rules]. *)
Definition converter_rules (features : option (list string)) : list Rule :=
  let features :=
    match features with
    | None => default_features
    | Some features => features
    end in
  foldl (fun rules feature =>
           match get_converter_rule feature with
           | Some rule => rules ++ rule
           | None => rules
           end) [] features.

(** The cached property [whitelister]. *)
Definition whitelister (features : option (list string))
    : DbTinymceWhitelister :=
  DbWhitelister_init (converter_rules features).

(** [EditorTinymceHTMLConverter.to_database_format] on the parsed
    document; the parser in front of it and the serializer behind it
    belong to the libraries. *)
Definition to_database_format (features : option (list string))
    (doc : list node) : option cleaned :=
  clean_document (whitelister features) doc.

End Registry.

(** ** The widget adapter (TinyMCERichTextArea) *)

(** The values [json.dumps] serializes. *)
#[warnings="-register-all"]
Inductive json : Type :=
| JNull
| JBool (b : bool)
| JNum (z : Z)
| JStr (s : string)
| JList (l : list json)
| JDict (d : list (string * json)).

(** [sep.join(items)] for a list of strings *)
Fixpoint str_join (sep : string) (items : list string) : string :=
  match items with
  | [] => ""
  | [x] => x
  | x :: rest => x ++ sep ++ str_join sep rest
  end.

(** The entries of [self.kwargs] that [render_js_init] reads.  [None] stands
    for a key that is absent or holds [None] or [False]: [dict.get] returns
    a value the tests below treat alike. *)
Record widget_kwargs : Type := {
  kw_options : option (Dict.t json);
  kw_buttons : option (list (list (list string)));
  kw_menus : option (list string);
  kw_language : option string
}.

(** [TinyMCERichTextArea.getDefaultArgs], for the locale [locale] that
    [translation.to_locale(translation.get_language() or 'en')] returns. *)
Definition getDefaultArgs (locale : string) : widget_kwargs :=
  {| kw_buttons :=
       Some [ [ ["undo"; "redo"];
                ["styleselect"];
                ["bold"; "italic"];
                ["bullist"; "numlist"; "outdent"; "indent"];
                ["table"];
                ["link"; "unlink"];
                ["wagtaildoclink"; "wagtailimage"; "wagtailembed"];
                ["pastetext"; "fullscreen"] ] ];
     kw_menus := None;
     kw_options :=
       Some [ ("browser_spellcheck", JBool true);
              ("noneditable_leave_contenteditable", JBool true);
              ("language", JStr locale);
              ("language_load", JBool true) ];
     kw_language := None |}.

(** The dictionary [kwargs] that [render_js_init] hands to [json.dumps]. *)
Definition render_js_init_kwargs (self_kwargs : widget_kwargs) : Dict.t json :=
  let kwargs :=
    match kw_options self_kwargs with
    | Some ((_ :: _) as options) => options
    | _ => []
    end in
  let kwargs :=
    match kw_buttons self_kwargs with
    | Some ((_ :: _) as buttons) =>
        Dict.set "toolbar"
          (JList (map (fun rows =>
                         JStr (str_join " | "
                                 (map (fun groups => str_join " " groups) rows)))
                    buttons))
          kwargs
    | _ => Dict.set "toolbar" (JBool false) kwargs
    end in
  let kwargs :=
    match kw_menus self_kwargs with
    | Some ((_ :: _) as menus) => Dict.set "menubar" (JStr (str_join " " menus)) kwargs
    | _ => Dict.set "menubar" (JBool false) kwargs
    end in
  match kw_language self_kwargs with
  | None => Dict.set "language" (JStr "en") kwargs
  | Some language =>
      if String.eqb language "" || String.eqb language "en_US"
      then Dict.set "language" (JStr "en") kwargs
      else Dict.set "language" (JStr language) kwargs
  end.

(** The calls the widget makes on its collaborators, in order. *)
Inductive call : Type :=
| ToDatabaseFormat (html : string)
| FromDatabaseFormat (html : string)
| SuperRender (name : string) (value : option string).

(** A computation that appends to the log of calls. *)
Definition logged (A : Type) : Type := list call -> A * list call.

Definition ret {A : Type} (a : A) : logged A := fun log => (a, log).

Definition bind {A B : Type} (m : logged A) (k : A -> logged B) : logged B :=
  fun log => let (a, log') := m log in k a log'.

Definition emit (c : call) : logged unit := fun log => (tt, log ++ [c]).

Section Widget.

(** [json.dumps] *)
Variable json_dumps : json -> string.

(** The two directions of [self.converter], on strings. *)
Variable converter_to_database_format : string -> string.
Variable converter_from_database_format : string -> string.

(** [widgets.Textarea.render] through [WidgetWithScript] *)
Variable super_render : string -> option string -> string.

Definition call_to_database_format (html : string) : logged string :=
  bind (emit (ToDatabaseFormat html))
       (fun _ => ret (converter_to_database_format html)).

Definition call_from_database_format (html : string) : logged string :=
  bind (emit (FromDatabaseFormat html))
       (fun _ => ret (converter_from_database_format html)).

Definition call_super_render (name : string) (value : option string)
    : logged string :=
  bind (emit (SuperRender name value))
       (fun _ => ret (super_render name value)).

(** [TinyMCERichTextArea.render] *)
Definition render (name : string) (value : option string) : logged string :=
  bind (match value with
        | None => ret None
        | Some value =>
            bind (call_from_database_format value) (fun v => ret (Some v))
        end)
       (fun translated_value => call_super_render name translated_value).

(** [TinyMCERichTextArea.render_js_init] *)
Definition render_js_init (self_kwargs : widget_kwargs) (id_ : string)
    : string :=
  "makeTinyMCEEditable(" ++ json_dumps (JStr id_) ++ ", "
    ++ json_dumps (JDict (render_js_init_kwargs self_kwargs)) ++ ");".

(** [TinyMCERichTextArea.value_from_datadict]; the inherited method
    returns [data.get(name)]. *)
Definition value_from_datadict (data : Dict.t string) (name : string)
    : logged (option string) :=
  let original_value := Dict.get name data in
  match original_value with
  | None => ret None
  | Some original_value =>
      bind (call_to_database_format original_value) (fun v => ret (Some v))
  end.

End Widget.

(** ** Predicates and sample values used in the statements *)

(** The outcomes that leave one node where the node stood. *)
Definition in_place (o : outcome) : bool :=
  match o with
  | Kept _ | ReplacedWith _ => true
  | Removed | Unwrapped _ => false
  end.

(** Trees on which the sanitizer has nothing to do: no comment, and every
    element is free of the embed marker, is no typed link, is not a [div],
    has a rule, and carries attributes that its rule leaves as they are. *)
Fixpoint plain (self : DbTinymceWhitelister) (n : node) : bool :=
  match n with
  | NavigableString _ => true
  | Comment _ => false
  | Tag name attrs _ contents =>
      negb (Dict.contains "data-embedtype" attrs)
      && negb (String.eqb name "a" && Dict.contains "data-linktype" attrs)
      && negb (String.eqb name "div")
      && match element_rules self !! name with
         | Some rule => bool_decide (rule attrs = attrs)
         | None => false
         end
      && forallb (plain self) contents
  end.

(** The invariant of the stored format: an [embed] element carries an
    [embedtype] that has a handler, and so does the [linktype] of an [a]
    element that carries one. *)
Fixpoint stored_ok (self : DbTinymceWhitelister) (n : node) : bool :=
  match n with
  | NavigableString _ | Comment _ => true
  | Tag name attrs _ contents =>
      (if String.eqb name "embed"
       then match Dict.get "embedtype" attrs with
            | Some embed_type =>
                match embed_handlers self !! embed_type with
                | Some _ => true
                | None => false
                end
            | None => false
            end
       else true)
      && (if String.eqb name "a"
          then match Dict.get "linktype" attrs with
               | Some link_type =>
                   match link_handlers self !! link_type with
                   | Some _ => true
                   | None => false
                   end
               | None => true
               end
          else true)
      && forallb (stored_ok self) contents
  end.

(** Trees without typed links: no [a] element carries [data-linktype]. *)
Fixpoint no_typed_link (n : node) : bool :=
  match n with
  | NavigableString _ | Comment _ => true
  | Tag name attrs _ contents =>
      negb (String.eqb name "a" && Dict.contains "data-linktype" attrs)
      && forallb no_typed_link contents
  end.

(** A locale of the English language that names a region: [en_GB], [en_US],
    [en_AU]. *)
Definition region_qualified_english (language : string) : bool :=
  String.prefix "en_" language && (3 <? String.length language)%nat.

(** A handler in the manner of the page link handler: the stored attribute
    [id] is the marker attribute [data-id]. *)
Definition id_handler (tag : node) : attributes :=
  match tag with
  | Tag _ attrs _ _ =>
      match Dict.get "data-id" attrs with
      | Some v => [("id", v)]
      | None => []
      end
  | _ => []
  end.

(** The sanitizer of the repository for the features [link], [bold] and
    [image], with [id_handler] for the page links and the images and a URL
    check that accepts every URL. *)
Definition sample_whitelister : DbTinymceWhitelister :=
  whitelister Some id_handler [EmbedTypeRule "image" id_handler]
    [LinkTypeRule "document" id_handler] []
    (Some ["link"; "bold"; "image"]).

(** Sample elements.  An [a] element that carries both markers, with a
    registered and with an unregistered embed type. *)
Definition link_with_image_marker : node :=
  Tag "a" [("data-embedtype", "image"); ("data-linktype", "page");
           ("data-id", "7")] false [NavigableString "Home"].

Definition link_with_bogus_markers : node :=
  Tag "a" [("data-embedtype", "bogus"); ("data-linktype", "nope")] false
    [NavigableString "Home"].

(** A page link whose first child is an embed of an unregistered type and
    whose second child is an [embed] element with a type tag that no handler
    is registered for. *)
Definition link_over_stale_embed : node :=
  Tag "a" [("data-linktype", "page"); ("data-id", "1")] false
    [Tag "img" [("data-embedtype", "bogus")] true [];
     Tag "embed" [("embedtype", "stale")] true []].

(** A page link, and a link of an unregistered type, whose first child is
    an embed of an unregistered type and whose second child is a [div] with
    an attribute that no rule allows. *)
Definition unsanitized_div : node :=
  Tag "div" [("class", "x")] false [NavigableString "t"].

Definition link_over_div : node :=
  Tag "a" [("data-linktype", "page"); ("data-id", "1")] false
    [Tag "img" [("data-embedtype", "bogus")] true []; unsanitized_div].

Definition unknown_link_over_div : node :=
  Tag "a" [("data-linktype", "nope")] false
    [Tag "img" [("data-embedtype", "bogus")] true []; unsanitized_div].

(** A link of an unregistered type over an unwrapped element, a removed
    element that holds text, and a string. *)
Definition link_over_text : node :=
  Tag "a" [("data-linktype", "nope")] false
    [Tag "span" [] false
       [NavigableString "x"; Tag "b" [] false [NavigableString "z"]];
     Tag "img" [("data-embedtype", "bogus")] true [NavigableString "gone"];
     NavigableString "y"].

(** An image as the editor marks it. *)
Definition editor_image : node :=
  Tag "img" [("data-embedtype", "image"); ("data-id", "4")] true [].

(** ** The rewriter of the other direction (html_rewriter) *)

Section Rewriter.

(** A handler is known in this development by its [get_db_attributes];
    [expand_db_attributes] gives the other method of the same handler. *)
Variable expand_db_attributes : (node -> attributes) -> attributes -> string.

(** The dictionary [embed_rules] that [html_rewriter] builds. *)
Definition html_rewriter_embed_rules (converter_rules : list Rule)
    : gmap string (attributes -> string) :=
  foldl (fun embed_rules rule =>
           match rule with
           | EmbedTypeRule embed_type handler =>
               <[embed_type := expand_db_attributes handler]> embed_rules
           | _ => embed_rules
           end) ∅ converter_rules.

(** The dictionary [link_rules] that [html_rewriter] builds. *)
Definition html_rewriter_link_rules (converter_rules : list Rule)
    : gmap string (attributes -> string) :=
  foldl (fun link_rules rule =>
           match rule with
           | LinkTypeRule link_type handler =>
               <[link_type := expand_db_attributes handler]> link_rules
           | _ => link_rules
           end) ∅ converter_rules.

(** The cached property [html_rewriter]: the rules of the link rewriter and
    of the embed rewriter, in the order of the chain. *)
Definition html_rewriter (converter_rules : list Rule)
    : gmap string (attributes -> string) * gmap string (attributes -> string) :=
  (html_rewriter_link_rules converter_rules,
   html_rewriter_embed_rules converter_rules).

End Rewriter.

(** ** Further predicates *)

Definition is_string (n : node) : bool :=
  match n with
  | NavigableString _ => true
  | _ => false
  end.

(** Trees in which a typed link holds strings only: the walk over the live
    contents of such a link finds nothing to remove or unwrap. *)
Fixpoint calm (n : node) : bool :=
  match n with
  | NavigableString _ | Comment _ => true
  | Tag name attrs _ contents =>
      (if String.eqb name "a" && Dict.contains "data-linktype" attrs
       then forallb is_string contents
       else true)
      && forallb calm contents
  end.

(** What the whitelist lets through: no comment, no [div], and every
    element is an [embed], has a rule, or is an [a] with [linktype]. *)
Fixpoint whitelisted (self : DbTinymceWhitelister) (n : node) : bool :=
  match n with
  | NavigableString _ => true
  | Comment _ => false
  | Tag name attrs _ contents =>
      negb (String.eqb name "div")
      && (String.eqb name "embed"
          || match element_rules self !! name with
             | Some _ => true
             | None => false
             end
          || (String.eqb name "a" && Dict.contains "linktype" attrs))
      && forallb (whitelisted self) contents
  end.

(** The strings of a tree, in document order. *)
Fixpoint strings (n : node) : list string :=
  match n with
  | NavigableString s => [s]
  | Comment _ => []
  | Tag _ _ _ contents => flat_map strings contents
  end.

Definition strings_list (l : list node) : list string := flat_map strings l.

(** The handler of the last whitelist rule for an element name in a list of
    converter rules. *)
Fixpoint last_whitelist_rule (name : string) (rules : list Rule)
    : option (attributes -> attributes) :=
  match rules with
  | [] => None
  | rule :: rest =>
      match last_whitelist_rule name rest with
      | Some handler => Some handler
      | None =>
          match rule with
          | WhitelistRule element handler =>
              if String.eqb element name then Some handler else None
          | _ => None
          end
      end
  end.

(** Rules that register a handler for a type of embed or link. *)
Definition type_rule (rule : Rule) : bool :=
  match rule with
  | WhitelistRule _ _ => false
  | EmbedTypeRule _ _ | LinkTypeRule _ _ => true
  end.

(** The elements of a table that the feature [table] registers. *)
Definition table_tags : list string :=
  ["table"; "caption"; "tbody"; "th"; "tr"; "td"].

(** The attribute names of [ALLOWED_ATTR]. *)
Definition allowed_attr (name : string) : bool :=
  existsb (String.eqb name) (map fst ALLOWED_ATTR).

(** ** Dictionaries: reading after writing *)

Lemma Dict_get_set_eq {V : Type} (k : string) (v : V) (d : Dict.t V) :
  Dict.get k (Dict.set k v d) = Some v.
Proof.
  induction d as [|[k' v'] d IH]; simpl.
  - now rewrite String.eqb_refl.
  - destruct (String.eqb k k') eqn:E; simpl; rewrite E; auto.
Qed.

Lemma Dict_get_set_ne {V : Type} (k k' : string) (v : V) (d : Dict.t V) :
  k' <> k -> Dict.get k' (Dict.set k v d) = Dict.get k' d.
Proof.
  intros Hne. induction d as [|[k0 v0] d IH]; simpl.
  - destruct (String.eqb k' k) eqn:E; auto.
    apply String.eqb_eq in E. contradiction.
  - destruct (String.eqb k k0) eqn:E; simpl.
    + apply String.eqb_eq in E. subst k0.
      destruct (String.eqb k' k) eqn:E'; auto.
      apply String.eqb_eq in E'. contradiction.
    + destruct (String.eqb k' k0); auto.
Qed.

Lemma Dict_contains_get {V : Type} (k : string) (d : Dict.t V) :
  Dict.contains k d = false <-> Dict.get k d = None.
Proof. unfold Dict.contains. destruct (Dict.get k d); split; congruence. Qed.

(** ** Sizes *)

Lemma node_size_pos (n : node) : 1 <= node_size n.
Proof. destruct n; simpl; lia. Qed.

Lemma size_list_app (a b : list node) :
  size_list (a ++ b) = size_list a + size_list b.
Proof. unfold size_list. rewrite map_app, list_sum_app. reflexivity. Qed.

Lemma size_list_cons (n : node) (l : list node) :
  size_list (n :: l) = node_size n + size_list l.
Proof. reflexivity. Qed.

Lemma size_list_single (n : node) : size_list [n] = node_size n.
Proof. unfold size_list. simpl. lia. Qed.

Lemma node_size_tag (name : string) (attrs : attributes) (e : bool)
    (contents : list node) :
  node_size (Tag name attrs e contents) = S (size_list contents).
Proof. reflexivity. Qed.

Lemma size_list_nil : size_list [] = 0.
Proof. reflexivity. Qed.

Ltac sizes :=
  simpl splice;
  rewrite ?size_list_single, ?node_size_tag, ?size_list_nil in *;
  try lia.

Lemma size_list_elem (n : node) (l : list node) :
  n ∈ l -> node_size n <= size_list l.
Proof.
  induction 1 as [x l|x y l _ IH]; rewrite size_list_cons; lia.
Qed.

Lemma size_list_drop1 (l : list node) :
  l <> [] -> S (size_list (drop 1 l)) <= size_list l.
Proof.
  destruct l as [|x l]; [congruence|]. intros _. simpl drop. rewrite drop_0.
  rewrite size_list_cons. pose proof (node_size_pos x). lia.
Qed.

Lemma size_list_drop1_le (l : list node) :
  size_list (drop 1 l) <= size_list l.
Proof.
  destruct l as [|x l]; [simpl; lia|]. simpl drop. rewrite drop_0.
  rewrite size_list_cons. lia.
Qed.

(** ** The two walks *)

Section Walks.

Variable step : node -> option outcome.


(** A snapshot walk succeeds when every step does, and does not grow the
    list when no step does. *)
Lemma iterate_snapshot_total (l : list node) :
  (forall c, c ∈ l ->
     exists o, step c = Some o /\ size_list (splice o) <= node_size c) ->
  exists r, iterate_snapshot step l = Some r /\ size_list r <= size_list l.
Proof.
  induction l as [|c l IH]; intros H; simpl.
  - exists []. split; [reflexivity|lia].
  - destruct (H c) as (o & Ho & Hs); [left|].
    destruct IH as (r & Hr & Hrs); [intros; apply H; now right|].
    rewrite Ho, Hr; simpl. eexists; split; [reflexivity|].
    rewrite size_list_app, size_list_cons. lia.
Qed.

(** The live walk ends within [gas] rounds when [gas] covers the size of
    what lies from the index on, provided no step grows the list. *)
Lemma iterate_live_total (bound gas : nat) :
  (forall c, node_size c <= bound ->
     exists o, step c = Some o /\ size_list (splice o) <= node_size c) ->
  forall (i : nat) (l : list node),
    size_list l <= bound -> size_list (drop i l) <= gas ->
    exists r, iterate_live step gas i l = Some r /\ size_list r <= size_list l.
Proof.
  intros Hstep. induction gas as [|gas IH]; intros i l Hb Hg.
  - destruct (l !! i) as [c|] eqn:E.
    + rewrite (drop_S _ _ _ E), size_list_cons in Hg.
      pose proof (node_size_pos c). lia.
    + exists l. simpl. rewrite E. split; [reflexivity|lia].
  - simpl. destruct (l !! i) as [c|] eqn:E.
    2:{ exists l. split; [reflexivity|lia]. }
    assert (Hsplit : l = take i l ++ c :: drop (S i) l).
    { rewrite <- (drop_S _ _ _ E). now rewrite take_drop. }
    assert (Hsz : size_list l =
                  size_list (take i l) + node_size c + size_list (drop (S i) l)).
    { rewrite Hsplit at 1. rewrite size_list_app, size_list_cons. lia. }
    destruct (Hstep c) as (o & Ho & Hs); [lia|].
    rewrite Ho; simpl.
    assert (Hlen : length (take i l) = i).
    { apply length_take_le. apply lookup_lt_Some in E. lia. }
    destruct (IH (S i) (take i l ++ splice o ++ drop (S i) l)) as (r & Hr & Hrs).
    + rewrite !size_list_app. lia.
    + replace (S i) with (length (take i l) + 1) at 1 by lia.
      rewrite drop_app_add.
      rewrite (drop_S _ _ _ E), size_list_cons in Hg.
      destruct (splice o) as [|x xs] eqn:Esp.
      * simpl app. pose proof (size_list_drop1_le (drop (S i) l)).
        pose proof (node_size_pos c). lia.
      * simpl. rewrite drop_0, size_list_app.
        rewrite size_list_cons in Hs. pose proof (node_size_pos x). lia.
    + exists r. split; [exact Hr|]. rewrite !size_list_app in Hrs. lia.
Qed.

(** When every child is left in place or replaced one for one, the live
    walk visits each child once: it is the snapshot walk. *)
Lemma iterate_live_snapshot (l : list node) :
  (forall c, c ∈ l -> exists o, step c = Some o /\ in_place o = true) ->
  forall (gas : nat) (pre : list node),
    length l <= gas ->
    iterate_live step gas (length pre) (pre ++ l) =
    r ← iterate_snapshot step l; Some (pre ++ r).
Proof.
  induction l as [|c l IH]; intros H gas pre Hg.
  - simpl. rewrite app_nil_r.
    destruct gas; simpl; now rewrite lookup_ge_None_2.
  - destruct gas as [|gas]; [simpl in Hg; lia|].
    simpl iterate_live. rewrite list_lookup_middle by reflexivity.
    destruct (H c) as (o & Ho & Hin); [left|].
    simpl. rewrite Ho; simpl.
    rewrite take_app_length.
    replace (pre ++ c :: l) with ((pre ++ [c]) ++ l) by now rewrite <- app_assoc.
    replace (S (length pre)) with (length (pre ++ [c])) at 2
      by (rewrite length_app; simpl; lia).
    rewrite drop_app_length.
    assert (Hsp : exists n, splice o = [n]).
    { destruct o; simpl in *; try discriminate; eauto. }
    destruct Hsp as (n & Hn). rewrite Hn.
    replace (pre ++ [n] ++ l) with ((pre ++ [n]) ++ l) by now rewrite <- app_assoc.
    replace (S (length pre)) with (length (pre ++ [n]))
      by (rewrite length_app; simpl; lia).
    rewrite IH.
    + destruct (iterate_snapshot step l); simpl; [|reflexivity].
      now rewrite <- app_assoc.
    + intros; apply H; now right.
    + simpl in Hg. lia.
Qed.

(** A string that is a child of the element is still one after the live
    walk, as long as the step keeps strings. *)
Lemma iterate_live_keeps_strings (s : string) :
  step (NavigableString s) = Some (Kept (NavigableString s)) ->
  forall (gas i : nat) (l r : list node),
    iterate_live step gas i l = Some r ->
    NavigableString s ∈ l -> NavigableString s ∈ r.
Proof.
  intros Hs. induction gas as [|gas IH]; intros i l r Hr Hin.
  - simpl in Hr. destruct (l !! i); [discriminate|]. now inversion Hr; subst.
  - simpl in Hr. destruct (l !! i) as [c|] eqn:E.
    2:{ now inversion Hr; subst. }
    destruct (step c) as [o|] eqn:Ho; simpl in Hr; [|discriminate].
    apply (IH _ _ _ Hr).
    rewrite <- (take_drop i l), (drop_S _ _ _ E) in Hin.
    rewrite !elem_of_app. rewrite elem_of_app, elem_of_cons in Hin.
    destruct Hin as [Hin|[Hin|Hin]]; auto.
    subst c. rewrite Hs in Ho. inversion Ho; subst. right; left. now left.
Qed.

End Walks.




(** ** The sanitizer returns: enough fuel, and no more is needed *)

Section SanitizerFacts.

Variable self : DbTinymceWhitelister.

Lemma clean_node_tag (fuel : nat) (name : string) (attrs : attributes)
    (e : bool) (contents : list node) :
  clean_node self (S fuel) (Tag name attrs e contents) =
  clean_tag_node self (clean_node self fuel) fuel name attrs e contents.
Proof. reflexivity. Qed.

(** With fuel for every node of the tree the sanitizer returns an outcome,
    and the nodes it leaves are no more than the nodes it found. *)
Lemma clean_node_total (fuel : nat) :
  forall n : node, node_size n <= fuel ->
    exists o, clean_node self fuel n = Some o
              /\ size_list (splice o) <= node_size n.
Proof.
  induction fuel as [|fuel IH]; intros n Hn.
  - pose proof (node_size_pos n). lia.
  - destruct n as [s|s|name attrs e contents]; simpl.
    + eexists; split; [reflexivity|]. cbn. lia.
    + eexists; split; [reflexivity|]. cbn. lia.
    + rewrite node_size_tag in *. fold (size_list contents).
      assert (Hc : size_list contents <= fuel) by lia.
      unfold clean_tag_node.
      destruct (Dict.get "data-embedtype" attrs) as [embed_type|].
      { destruct (embed_handlers self !! embed_type);
          (eexists; split; [reflexivity|]); sizes. }
      assert (Hgeneric : forall name',
        exists o, Whitelister_clean_tag_node self (clean_node self fuel)
                    name' attrs e contents = Some o
                  /\ size_list (splice o) <= S (size_list contents)).
      { intros name'. unfold Whitelister_clean_tag_node.
        destruct (iterate_snapshot_total (clean_node self fuel) contents)
          as (r & Hr & Hrs).
        { intros c Hin. apply IH. pose proof (size_list_elem _ _ Hin). lia. }
        rewrite Hr; simpl.
        destruct (element_rules self !! name');
          (eexists; split; [reflexivity|]); sizes. }
      destruct (String.eqb name "a"); [|apply Hgeneric].
      destruct (Dict.get "data-linktype" attrs) as [link_type|];
        [|apply Hgeneric].
      destruct (iterate_live_total (clean_node self fuel) fuel fuel)
        with (i := 0) (l := contents) as (r & Hr & Hrs).
      { intros c Hcs. now apply IH. }
      { exact Hc. }
      { now rewrite drop_0. }
      rewrite Hr; simpl.
      destruct (link_handlers self !! link_type);
        (eexists; split; [reflexivity|]); sizes.
Qed.




(** [clean] returns for every document, or raises [ValueError] where it
    does. *)
Lemma clean_document_total (doc : list node) :
  exists result, clean_document self doc = Some result.
Proof.
  unfold clean_document.
  destruct (clean_node_total (node_size (Tag "[document]" [] false doc))
              (Tag "[document]" [] false doc)) as (o & Ho & _); [lia|].
  rewrite Ho. simpl. eauto.
Qed.

(** The document object takes the generic path. *)
Lemma clean_document_unfold (doc : list node) :
  clean_document self doc =
  contents' ← iterate_snapshot (clean_node self (size_list doc)) doc;
  Some (match element_rules self !! "[document]" with
        | Some _ => Cleaned contents'
        | None => ValueError
        end).
Proof.
  unfold clean_document. simpl. unfold clean_tag_node. simpl.
  unfold Whitelister_clean_tag_node. fold (size_list doc).
  destruct (iterate_snapshot (clean_node self (size_list doc)) doc); simpl;
    [|reflexivity].
  destruct (element_rules self !! "[document]"); reflexivity.
Qed.

End SanitizerFacts.

(** ** Elements carrying the embed marker *)





(** ** Typed links *)

Lemma length_le_size_list (l : list node) : length l <= size_list l.
Proof.
  induction l as [|c l IH]; [simpl; lia|].
  rewrite size_list_cons. pose proof (node_size_pos c). simpl. lia.
Qed.

(** The walk of the link branch over the contents of an element: it
    returns, direct string children stay, and it is the snapshot walk when
    no child is removed or unwrapped. *)
Lemma link_walk (self : DbTinymceWhitelister) (fuel : nat)
    (contents : list node) :
  size_list contents <= fuel ->
  exists contents',
    iterate_live (clean_node self fuel) fuel 0 contents = Some contents'
    /\ (forall s, NavigableString s ∈ contents ->
                  NavigableString s ∈ contents')
    /\ ((forall c, c ∈ contents ->
           exists o, clean_node self fuel c = Some o /\ in_place o = true) ->
        iterate_snapshot (clean_node self fuel) contents = Some contents').
Proof.
  intros Hsize.
  destruct (iterate_live_total (clean_node self fuel) fuel fuel)
    with (i := 0) (l := contents) as (r & Hr & _).
  { intros c Hc. now apply clean_node_total. }
  { exact Hsize. }
  { now rewrite drop_0. }
  exists r. split; [exact Hr|]. split.
  - intros s Hin.
    apply (iterate_live_keeps_strings (clean_node self fuel) s) with (2 := Hr);
      [|exact Hin].
    pose proof (size_list_elem _ _ Hin) as Hs. simpl in Hs.
    destruct fuel; [lia|reflexivity].
  - intros Hplace.
    pose proof (iterate_live_snapshot (clean_node self fuel) contents Hplace
                  fuel []) as Hlive.
    simpl in Hlive. rewrite Hr in Hlive.
    pose proof (length_le_size_list contents).
    specialize (Hlive ltac:(lia)).
    destruct (iterate_snapshot (clean_node self fuel) contents); simpl in Hlive;
      congruence.
Qed.

(** The link branch with a registered handler.  For an [a] element that
    carries [data-linktype] with a registered link handler and carries no
    [data-embedtype], the sanitizer
    walks over the contents, then keeps the element and replaces its
    attributes wholesale by the output of the handler (read off the element
    with the contents as the walk left them) with [linktype] set to the
    value of the marker.  The contents are those the walk left: the rewrite
    of the attributes does not touch them, the strings among the children
    are all still there, and when sanitizing removes or unwraps no child
    they are the children, each sanitized once. *)
Theorem typed_link_rewritten (self : DbTinymceWhitelister) (fuel : nat)
    (attrs : attributes) (e : bool) (contents : list node)
    (link_type : string) (handler : node -> attributes) :
  Dict.get "data-embedtype" attrs = None ->
  Dict.get "data-linktype" attrs = Some link_type ->
  link_handlers self !! link_type = Some handler ->
  size_list contents <= fuel ->
  exists contents',
    let link_attrs :=
      Dict.set "linktype" link_type (handler (Tag "a" attrs e contents')) in
    clean_node self (S fuel) (Tag "a" attrs e contents) =
      Some (Kept (Tag "a" link_attrs e contents'))
    /\ Dict.get "linktype" link_attrs = Some link_type
    /\ (forall k, k <> "linktype" ->
          Dict.get k link_attrs =
          Dict.get k (handler (Tag "a" attrs e contents')))
    /\ (forall s, NavigableString s ∈ contents ->
                  NavigableString s ∈ contents')
    /\ ((forall c, c ∈ contents ->
           exists o, clean_node self fuel c = Some o /\ in_place o = true) ->
        iterate_snapshot (clean_node self fuel) contents = Some contents').
Proof.
  intros Hembed Hmarker Hhandler Hsize.
  destruct (link_walk self fuel contents Hsize) as (r & Hr & Hstr & Hsnap).
  exists r. cbv zeta. split.
  { rewrite clean_node_tag. unfold clean_tag_node.
    rewrite Hembed, Hmarker. cbv beta iota.
    change (String.eqb "a" "a") with true. cbv beta iota.
    rewrite Hr. cbn [mbind option_bind]. now rewrite Hhandler. }
  split; [apply Dict_get_set_eq|].
  split; [intros k Hk; now apply Dict_get_set_ne|].
  split; assumption.
Qed.

Lemma typed_link_rewritten_witness :
  exists contents',
    let link_attrs :=
      Dict.set "linktype" "page"
        (id_handler
           (Tag "a" [("data-linktype", "page"); ("data-id", "7")] false
              contents')) in
    clean_node sample_whitelister 2
      (Tag "a" [("data-linktype", "page"); ("data-id", "7")] false
         [NavigableString "Home"]) =
      Some (Kept (Tag "a" link_attrs false contents'))
    /\ Dict.get "linktype" link_attrs = Some "page"
    /\ (forall k, k <> "linktype" ->
          Dict.get k link_attrs =
          Dict.get k (id_handler
                        (Tag "a" [("data-linktype", "page"); ("data-id", "7")]
                           false contents')))
    /\ (forall s, NavigableString s ∈ [NavigableString "Home"] ->
                  NavigableString s ∈ contents')
    /\ ((forall c, c ∈ [NavigableString "Home"] ->
           exists o, clean_node sample_whitelister 1 c = Some o
                     /\ in_place o = true) ->
        iterate_snapshot (clean_node sample_whitelister 1)
          [NavigableString "Home"] = Some contents').
Proof.
  apply (typed_link_rewritten sample_whitelister 1
           [("data-linktype", "page"); ("data-id", "7")] false
           [NavigableString "Home"] "page" id_handler);
    [reflexivity|reflexivity|reflexivity|vm_compute; lia].
Defined.

(** The page link and the image of the specification's examples. *)
Example page_link_sample :
  clean_document sample_whitelister
    [Tag "a" [("data-linktype", "page"); ("data-id", "7")] false
       [NavigableString "Home"]] =
  Some (Cleaned
          [Tag "a" [("id", "7"); ("linktype", "page")] false
             [NavigableString "Home"]]).
Proof. reflexivity. Qed.

Example image_sample :
  clean_document sample_whitelister [editor_image] =
  Some (Cleaned [Tag "embed" [("id", "4"); ("embedtype", "image")] true []]).
Proof. reflexivity. Qed.

(** The embed marker is tested before the link marker: an [a] element that
    carries both is replaced by an [embed] element. *)
Lemma typed_link_with_embed_marker_replaced :
  link_with_image_marker =
    Tag "a" [("data-embedtype", "image"); ("data-linktype", "page");
             ("data-id", "7")] false [NavigableString "Home"]
  /\ link_handlers sample_whitelister !! "page" = Some id_handler
  /\ clean_node sample_whitelister (node_size link_with_image_marker)
       link_with_image_marker =
     Some (ReplacedWith
             (Tag "embed" [("id", "7"); ("embedtype", "image")] true []))
  /\ ~ (exists kept,
         clean_node sample_whitelister (node_size link_with_image_marker)
           link_with_image_marker = Some (Kept kept)).
Proof.
  split; [reflexivity|]. split; [reflexivity|]. split; [reflexivity|].
  intros (kept & Hkept). vm_compute in Hkept. discriminate Hkept.
Qed.

(** The link branch without a registered handler.  For an [a] element that
    carries [data-linktype] with no registered link handler and carries no
    [data-embedtype], the sanitizer
    walks over the contents and unwraps the element: what stands in its
    place in the parent are the contents as the walk left them, without the
    [a] element and its attributes.  The strings among the children are all
    promoted, and when sanitizing removes or unwraps no child the promoted
    nodes are the children, each sanitized once. *)
Theorem unregistered_link_unwrapped (self : DbTinymceWhitelister) (fuel : nat)
    (attrs : attributes) (e : bool) (contents : list node)
    (link_type : string) :
  Dict.get "data-embedtype" attrs = None ->
  Dict.get "data-linktype" attrs = Some link_type ->
  link_handlers self !! link_type = None ->
  size_list contents <= fuel ->
  exists contents',
    clean_node self (S fuel) (Tag "a" attrs e contents) =
      Some (Unwrapped contents')
    /\ splice (Unwrapped contents') = contents'
    /\ (forall s, NavigableString s ∈ contents ->
                  NavigableString s ∈ contents')
    /\ ((forall c, c ∈ contents ->
           exists o, clean_node self fuel c = Some o /\ in_place o = true) ->
        iterate_snapshot (clean_node self fuel) contents = Some contents').
Proof.
  intros Hembed Hmarker Hhandler Hsize.
  destruct (link_walk self fuel contents Hsize) as (r & Hr & Hstr & Hsnap).
  exists r. split.
  { rewrite clean_node_tag. unfold clean_tag_node.
    rewrite Hembed, Hmarker. cbv beta iota.
    change (String.eqb "a" "a") with true. cbv beta iota.
    rewrite Hr. cbn [mbind option_bind]. now rewrite Hhandler. }
  split; [reflexivity|]. split; assumption.
Qed.

Lemma unregistered_link_unwrapped_witness :
  exists contents',
    clean_node sample_whitelister 4
      (Tag "a" [("data-linktype", "nope"); ("href", "h")] false
         [NavigableString "t"; Tag "b" [("id", "q")] false [NavigableString "u"]]) =
      Some (Unwrapped contents')
    /\ splice (Unwrapped contents') = contents'
    /\ (forall s,
          NavigableString s ∈
            [NavigableString "t";
             Tag "b" [("id", "q")] false [NavigableString "u"]] ->
          NavigableString s ∈ contents')
    /\ ((forall c,
           c ∈ [NavigableString "t";
                Tag "b" [("id", "q")] false [NavigableString "u"]] ->
           exists o, clean_node sample_whitelister 3 c = Some o
                     /\ in_place o = true) ->
        iterate_snapshot (clean_node sample_whitelister 3)
          [NavigableString "t"; Tag "b" [("id", "q")] false [NavigableString "u"]]
        = Some contents').
Proof.
  apply (unregistered_link_unwrapped sample_whitelister 3
           [("data-linktype", "nope"); ("href", "h")] false
           [NavigableString "t"; Tag "b" [("id", "q")] false [NavigableString "u"]]
           "nope");
    [reflexivity|reflexivity|reflexivity|vm_compute; lia].
Defined.

(** The embed marker is tested before the link marker: an [a] element that
    carries both, with an unregistered embed type, is removed. *)
Lemma unregistered_link_with_embed_marker_removed :
  link_with_bogus_markers =
    Tag "a" [("data-embedtype", "bogus"); ("data-linktype", "nope")] false
      [NavigableString "Home"]
  /\ link_handlers sample_whitelister !! "nope" = None
  /\ clean_node sample_whitelister (node_size link_with_bogus_markers)
       link_with_bogus_markers = Some Removed
  /\ clean_document sample_whitelister [link_with_bogus_markers] =
     Some (Cleaned [])
  /\ ~ (exists contents',
         clean_node sample_whitelister (node_size link_with_bogus_markers)
           link_with_bogus_markers = Some (Unwrapped contents')
         /\ NavigableString "Home" ∈ contents').
Proof.
  split; [reflexivity|]. split; [reflexivity|]. split; [reflexivity|].
  split; [reflexivity|].
  intros (contents' & Hc & _). vm_compute in Hc. discriminate Hc.
Qed.

(** *** Children that the walk does not reach *)

(** C3.  The sanitizer of the repository, for the feature [link] and any
    page link handler, on a page link whose first child is an embed of an
    unregistered type and whose second child is a [div]: the handler is
    registered and the children, sanitized, are one [p] element without
    attributes; but the removal of the first child moves the [div] to the
    index the walk has just left, the walk ends without a visit to it, and
    the link is kept over the [div] as it came, name and attributes. *)
Theorem typed_link_child_not_sanitized
    (check_url : string -> option string)
    (PageLinkHandler : node -> attributes)
    (image_rules document_rules : list Rule) (defaults : list string) :
  let self := whitelister check_url PageLinkHandler image_rules
                document_rules defaults (Some ["link"]) in
  link_handlers self !! "page" = Some PageLinkHandler
  /\ iterate_snapshot (clean_node self 3)
       [Tag "img" [("data-embedtype", "bogus")] true []; unsanitized_div] =
     Some [Tag "p" [] false [NavigableString "t"]]
  /\ clean_node self (node_size link_over_div) link_over_div =
     Some (Kept
             (Tag "a"
                (Dict.set "linktype" "page"
                   (PageLinkHandler
                      (Tag "a" [("data-linktype", "page"); ("data-id", "1")]
                         false [unsanitized_div])))
                false [unsanitized_div]))
  /\ to_database_format check_url PageLinkHandler image_rules document_rules
       defaults (Some ["link"]) [link_over_div] =
     Some (Cleaned
             [Tag "a"
                (Dict.set "linktype" "page"
                   (PageLinkHandler
                      (Tag "a" [("data-linktype", "page"); ("data-id", "1")]
                         false [unsanitized_div])))
                false [unsanitized_div]]).
Proof. repeat split; reflexivity. Qed.

(** C4.  The sanitizer of the repository, for the feature [link] and any
    page link handler, on a link of an unregistered type whose first child
    is an embed of an unregistered type and whose second child is a [div]:
    no handler is registered and the children, sanitized, are one [p]
    element without attributes; but the walk ends without a visit to the
    [div], the link is unwrapped, and the [div] is promoted to the parent
    as it came and reaches the stored output. *)
Theorem unregistered_link_child_not_sanitized
    (check_url : string -> option string)
    (PageLinkHandler : node -> attributes)
    (image_rules document_rules : list Rule) (defaults : list string) :
  let self := whitelister check_url PageLinkHandler image_rules
                document_rules defaults (Some ["link"]) in
  link_handlers self !! "nope" = None
  /\ iterate_snapshot (clean_node self 3)
       [Tag "img" [("data-embedtype", "bogus")] true []; unsanitized_div] =
     Some [Tag "p" [] false [NavigableString "t"]]
  /\ clean_node self (node_size unknown_link_over_div) unknown_link_over_div =
     Some (Unwrapped [unsanitized_div])
  /\ to_database_format check_url PageLinkHandler image_rules document_rules
       defaults (Some ["link"]) [unknown_link_over_div] =
     Some (Cleaned [unsanitized_div]).
Proof. repeat split; reflexivity. Qed.

(** A comment in front of the [div] does the same to a link of an
    unregistered type. *)
Example comment_shifts_unwrapped_walk :
  clean_document sample_whitelister
    [Tag "a" [("data-linktype", "nope")] false
       [Comment "c"; unsanitized_div]] =
  Some (Cleaned [unsanitized_div]).
Proof. reflexivity. Qed.

(** ** The stored format *)

(** C5.  The sanitizer of the repository, for the feature [link] and any
    page link handler, on a page link whose first child is an embed of an
    unregistered type: the removal of the first child moves the second to
    the index the iterator has just left, the walk ends without a visit to
    it, and the stored output holds an [embed] element whose type tag has no
    registered handler. *)
Theorem stale_embed_reaches_stored_output
    (check_url : string -> option string)
    (PageLinkHandler : node -> attributes)
    (image_rules document_rules : list Rule) (defaults : list string) :
  embed_handlers
    (whitelister check_url PageLinkHandler image_rules document_rules
       defaults (Some ["link"])) !! "stale" = None
  /\ to_database_format check_url PageLinkHandler image_rules document_rules
       defaults (Some ["link"]) [link_over_stale_embed] =
     Some (Cleaned
             [Tag "a"
                (Dict.set "linktype" "page"
                   (PageLinkHandler
                      (Tag "a" [("data-linktype", "page"); ("data-id", "1")]
                         false [Tag "embed" [("embedtype", "stale")] true []])))
                false
                [Tag "embed" [("embedtype", "stale")] true []]]).
Proof. split; reflexivity. Qed.

(** The same input on the sample sanitizer, and the walk that goes wrong. *)
Example stale_embed_sample :
  iterate_live (clean_node sample_whitelister 2) 2 0
    [Tag "img" [("data-embedtype", "bogus")] true [];
     Tag "embed" [("embedtype", "stale")] true []] =
  Some [Tag "embed" [("embedtype", "stale")] true []]
  /\ iterate_snapshot (clean_node sample_whitelister 2)
       [Tag "img" [("data-embedtype", "bogus")] true [];
        Tag "embed" [("embedtype", "stale")] true []] = Some []
  /\ clean_document sample_whitelister [link_over_stale_embed] =
     Some (Cleaned
             [Tag "a" [("id", "1"); ("linktype", "page")] false
                [Tag "embed" [("embedtype", "stale")] true []]]).
Proof. repeat split; reflexivity. Qed.

(** What holds of every outcome of a step holds of the result of the
    snapshot walk. *)
Lemma iterate_snapshot_all (P : node -> bool) (step : node -> option outcome)
    (l r : list node) :
  (forall c o, c ∈ l -> step c = Some o -> forallb P (splice o) = true) ->
  iterate_snapshot step l = Some r -> forallb P r = true.
Proof.
  revert r. induction l as [|c l IH]; intros r H Hr; simpl in Hr.
  - now inversion Hr.
  - destruct (step c) as [o|] eqn:Ho; simpl in Hr; [|discriminate].
    destruct (iterate_snapshot step l) as [r'|]; simpl in Hr; [|discriminate].
    inversion Hr; subst. rewrite forallb_app.
    rewrite (H c o) by (auto; left). simpl.
    apply IH; [|reflexivity]. intros c' o' Hin. apply H. now right.
Qed.

(** Where no typed link is walked over, the invariant of the stored format
    holds of everything the sanitizer leaves, for a rule set without rule for
    [embed] and whose rule for [a] drops [linktype], as the rules of the
    repository are. *)
Lemma stored_ok_without_typed_links (self : DbTinymceWhitelister) :
  element_rules self !! "embed" = None ->
  (forall rule attrs, element_rules self !! "a" = Some rule ->
                      Dict.get "linktype" (rule attrs) = None) ->
  forall (fuel : nat) (n : node) (o : outcome),
    no_typed_link n = true ->
    clean_node self fuel n = Some o ->
    forallb (stored_ok self) (splice o) = true.
Proof.
  intros Hno_embed Hlink. induction fuel as [|fuel IH]; intros n o Hn Ho;
    [discriminate|].
  destruct n as [s|s|name attrs e contents];
    [inversion Ho; reflexivity|inversion Ho; reflexivity|].
  rewrite clean_node_tag in Ho. unfold clean_tag_node in Ho.
  simpl in Hn. apply andb_prop in Hn as [Hname Hkids].
  destruct (Dict.get "data-embedtype" attrs) as [embed_type|].
  { destruct (embed_handlers self !! embed_type) as [h|] eqn:Hh;
      inversion Ho; subst; [|reflexivity].
    cbn [splice forallb stored_ok]. change (String.eqb "embed" "embed") with true.
    change (String.eqb "embed" "a") with false. cbv beta iota.
    now rewrite Dict_get_set_eq, Hh. }
  assert (Hgeneric : forall name',
    (name' = "a" -> name = "a") ->
    Whitelister_clean_tag_node self (clean_node self fuel) name' attrs e contents
      = Some o ->
    forallb (stored_ok self) (splice o) = true).
  { intros name' Hname'. unfold Whitelister_clean_tag_node.
    destruct (iterate_snapshot (clean_node self fuel) contents) as [r|] eqn:Hr;
      cbn [mbind option_bind]; [|discriminate].
    assert (Hall : forallb (stored_ok self) r = true).
    { apply (iterate_snapshot_all _ _ _ _) with (2 := Hr).
      intros c o' Hin Hc. apply (IH c); [|exact Hc].
      rewrite forallb_forall in Hkids. apply Hkids. now apply list_elem_of_In. }
    destruct (element_rules self !! name') as [rule|] eqn:Hrule;
      intros Hres; inversion Hres; subst; [|exact Hall].
    cbn [splice forallb stored_ok]. rewrite Hall, !andb_true_r.
    apply andb_true_intro. split.
    - destruct (String.eqb name' "embed") eqn:E; [|reflexivity].
      apply String.eqb_eq in E. subst. congruence.
    - destruct (String.eqb name' "a") eqn:E; [|reflexivity].
      apply String.eqb_eq in E. subst.
      now rewrite (Hlink rule attrs Hrule). }
  assert (Hrename : (if String.eqb name "div" then "p" else name) = "a" ->
                    name = "a").
  { destruct (String.eqb name "div"); [discriminate|auto]. }
  destruct (String.eqb name "a") eqn:Ea.
  - destruct (Dict.get "data-linktype" attrs) eqn:El.
    + unfold Dict.contains in Hname. rewrite El in Hname. discriminate Hname.
    + now apply (Hgeneric _ Hrename).
  - now apply (Hgeneric _ Hrename).
Qed.

Lemma attribute_rule_drops (allowed_attrs : Dict.t attr_rule) (k : string)
    (attrs : attributes) :
  Dict.get k allowed_attrs = None ->
  Dict.get k (attribute_rule allowed_attrs attrs) = None.
Proof.
  intros Hk. unfold attribute_rule.
  induction attrs as [|[attr val] attrs IH]; [reflexivity|]. simpl.
  destruct (String.eqb k attr) eqn:E.
  - apply String.eqb_eq in E. subst attr. rewrite Hk. exact IH.
  - destruct (Dict.get attr allowed_attrs) as [[|f]|]; [| |exact IH].
    + simpl. now rewrite E.
    + destruct (f val); [simpl; now rewrite E|exact IH].
Qed.

(** The sample sanitizer is such a rule set. *)
Lemma sample_whitelister_strict :
  element_rules sample_whitelister !! "embed" = None
  /\ (forall rule attrs,
        element_rules sample_whitelister !! "a" = Some rule ->
        Dict.get "linktype" (rule attrs) = None).
Proof.
  split; [reflexivity|]. intros rule attrs Hrule.
  assert (Ha : element_rules sample_whitelister !! "a" =
               Some (attribute_rule [("href", Callable Some)])) by reflexivity.
  rewrite Ha in Hrule. inversion Hrule; subst.
  now apply attribute_rule_drops.
Qed.

(** A comment in front of a child has the same effect: the [div] behind it
    is not visited and keeps its name and its attributes, where the snapshot
    walk sanitizes it. *)
Example comment_shifts_walk :
  clean_document sample_whitelister
    [Tag "a" [("data-linktype", "page"); ("data-id", "1")] false
       [Comment "c"; Tag "div" [("class", "x")] false [NavigableString "t"]]] =
  Some (Cleaned
          [Tag "a" [("id", "1"); ("linktype", "page")] false
             [Tag "div" [("class", "x")] false [NavigableString "t"]]])
  /\ iterate_snapshot (clean_node sample_whitelister 3)
       [Comment "c"; Tag "div" [("class", "x")] false [NavigableString "t"]] =
     Some [Tag "p" [] false [NavigableString "t"]].
Proof. split; reflexivity. Qed.

(** A walk over a snapshot whose every step keeps the node as it is returns
    the list as it is. *)
Lemma iterate_snapshot_kept (step : node -> option outcome) (l : list node) :
  (forall c, c ∈ l -> step c = Some (Kept c)) ->
  iterate_snapshot step l = Some l.
Proof.
  induction l as [|c l IH]; intros H; simpl; [reflexivity|].
  rewrite (H c) by left. simpl. rewrite IH; [reflexivity|].
  intros; apply H; now right.
Qed.

Lemma plain_kept (self : DbTinymceWhitelister) (fuel : nat) :
  forall n : node, node_size n <= fuel -> plain self n = true ->
    clean_node self fuel n = Some (Kept n).
Proof.
  induction fuel as [|fuel IH]; intros n Hn Hplain.
  - pose proof (node_size_pos n). lia.
  - destruct n as [s|s|name attrs e contents]; [reflexivity|discriminate|].
    rewrite node_size_tag in Hn. simpl in Hplain.
    repeat (apply andb_prop in Hplain as [Hplain ?]).
    rewrite clean_node_tag. unfold clean_tag_node.
    assert (Hembed : Dict.get "data-embedtype" attrs = None).
    { apply Dict_contains_get. now apply negb_true_iff. }
    rewrite Hembed.
    assert (Hname : (if String.eqb name "div" then "p" else name) = name).
    { destruct (String.eqb name "div"); [discriminate|reflexivity]. }
    assert (Hgeneric :
      Whitelister_clean_tag_node self (clean_node self fuel) name attrs e contents
      = Some (Kept (Tag name attrs e contents))).
    { unfold Whitelister_clean_tag_node.
      rewrite iterate_snapshot_kept.
      - cbn [mbind option_bind].
        destruct (element_rules self !! name) as [rule|]; [|discriminate].
        match goal with H : bool_decide _ = true |- _ =>
          apply bool_decide_eq_true in H; now rewrite H end.
      - intros c Hin. apply IH.
        + pose proof (size_list_elem _ _ Hin). lia.
        + match goal with H : forallb _ _ = true |- _ =>
            rewrite forallb_forall in H; apply H end.
          now apply list_elem_of_In. }
    destruct (String.eqb name "a") eqn:Ea.
    + destruct (Dict.get "data-linktype" attrs) eqn:El.
      * exfalso.
        match goal with H : negb (true && _) = true |- _ =>
          unfold Dict.contains in H; rewrite El in H; discriminate H end.
      * rewrite Hname. exact Hgeneric.
    + rewrite Hname. exact Hgeneric.
Qed.

(** C6, as amended.  A document without comments, whose elements all carry
    no [data-embedtype], are no [a] with [data-linktype], are not named
    [div], have a rule in the active rule set and carry attributes that the
    rule leaves as they are, is returned as it is; sanitizing it again then
    returns it again. *)
Theorem plain_document_unchanged (self : DbTinymceWhitelister)
    (doc : list node) (rule : attributes -> attributes) :
  element_rules self !! "[document]" = Some rule ->
  forallb (plain self) doc = true ->
  clean_document self doc = Some (Cleaned doc).
Proof.
  intros Hroot Hplain. rewrite clean_document_unfold.
  rewrite iterate_snapshot_kept.
  - cbn [mbind option_bind]. now rewrite Hroot.
  - intros c Hin. apply plain_kept.
    + now apply size_list_elem.
    + rewrite forallb_forall in Hplain. apply Hplain.
      now apply list_elem_of_In.
Qed.

Lemma plain_document_unchanged_witness :
  clean_document sample_whitelister
    [Tag "p" [] false
       [NavigableString "t";
        Tag "a" [("href", "/x")] false [NavigableString "u"];
        Tag "br" [] true []]] =
  Some (Cleaned
          [Tag "p" [] false
             [NavigableString "t";
              Tag "a" [("href", "/x")] false [NavigableString "u"];
              Tag "br" [] true []]]).
Proof.
  apply (plain_document_unchanged sample_whitelister _ allow_without_attributes);
    [reflexivity|vm_compute; reflexivity].
Defined.

(** The claim C6 as it is written fails on the stored form of an image:
    sanitizing the output of the sanitizer once more finds an [embed]
    element without marker and without rule, and unwraps it to nothing. *)
Lemma sanitizing_stored_embed_drops_it :
  clean_document sample_whitelister [editor_image] =
    Some (Cleaned [Tag "embed" [("id", "4"); ("embedtype", "image")] true []])
  /\ clean_document sample_whitelister
       [Tag "embed" [("id", "4"); ("embedtype", "image")] true []] =
     Some (Cleaned [])
  /\ [Tag "embed" [("id", "4"); ("embedtype", "image")] true []] <> [].
Proof. repeat split; try reflexivity. discriminate. Qed.

(** ** The generic container *)

(** The rules for [p] and [div] are active whatever the converter rules. *)
Lemma base_rules_kept (converter_rules : list Rule) (name : string) :
  is_Some (BASE_WHITELIST_RULES !! name) ->
  is_Some (element_rules (DbWhitelister_init converter_rules) !! name).
Proof.
  unfold DbWhitelister_init. simpl.
  generalize BASE_WHITELIST_RULES as m.
  induction converter_rules as [|r rs IH]; intros m Hm; simpl; [exact Hm|].
  apply IH. destruct r as [element handler| |]; try exact Hm.
  rewrite lookup_insert_is_Some. destruct (decide (element = name)); auto.
Qed.



Example div_sample :
  clean_document sample_whitelister
    [Tag "div" [] false
       [NavigableString "t"; Tag "b" [("id", "q")] false [NavigableString "u"]]] =
  Some (Cleaned
          [Tag "p" [] false
             [NavigableString "t"; Tag "b" [] false [NavigableString "u"]]]).
Proof. reflexivity. Qed.

(** ** The client configuration *)

Lemma toolbar_kept (kw : widget_kwargs) :
  Dict.get "toolbar" (render_js_init_kwargs kw) =
  Some (match kw_buttons kw with
        | Some ((_ :: _) as buttons) =>
            JList (map (fun rows =>
                          JStr (str_join " | "
                                  (map (fun groups => str_join " " groups) rows)))
                     buttons)
        | _ => JBool false
        end).
Proof.
  unfold render_js_init_kwargs.
  destruct (kw_language kw) as [language|];
    [destruct (String.eqb language "" || String.eqb language "en_US")|];
    (rewrite Dict_get_set_ne by discriminate);
    (destruct (kw_menus kw) as [[|m ms]|];
     rewrite Dict_get_set_ne by discriminate);
    (destruct (kw_buttons kw) as [[|b bs]|]; now rewrite Dict_get_set_eq).
Qed.

(** C8, as amended.  The language of the configuration is [en] when the
    configured language is absent, empty or [en_US]; every other value,
    the other region-qualified English locales among them, is passed
    through as it is. *)
Theorem language_normalized (kw : widget_kwargs) :
  (kw_language kw = None \/ kw_language kw = Some ""
   \/ kw_language kw = Some "en_US" ->
   Dict.get "language" (render_js_init_kwargs kw) = Some (JStr "en"))
  /\ (forall language,
        kw_language kw = Some language ->
        language <> "" -> language <> "en_US" ->
        Dict.get "language" (render_js_init_kwargs kw) = Some (JStr language)).
Proof.
  unfold render_js_init_kwargs. split.
  - intros [H|[H|H]]; rewrite H; simpl; apply Dict_get_set_eq.
  - intros language H Hempty Hus. rewrite H.
    apply String.eqb_neq in Hempty, Hus. rewrite Hempty, Hus. simpl.
    apply Dict_get_set_eq.
Qed.

Lemma language_normalized_witness :
  Dict.get "language" (render_js_init_kwargs (getDefaultArgs "fr_FR")) =
    Some (JStr "en")
  /\ Dict.get "language"
       (render_js_init_kwargs
          {| kw_options := None; kw_buttons := None; kw_menus := None;
             kw_language := Some "de" |}) = Some (JStr "de").
Proof.
  split.
  - apply (proj1 (language_normalized (getDefaultArgs "fr_FR"))).
    left. reflexivity.
  - apply (proj2 (language_normalized
                    {| kw_options := None; kw_buttons := None;
                       kw_menus := None; kw_language := Some "de" |}) "de");
      [reflexivity|discriminate|discriminate].
Defined.

(** The claim C8 as it is written fails on [en_GB], a region-qualified
    English locale that is passed through. *)
Lemma en_GB_passed_through :
  region_qualified_english "en_GB" = true
  /\ Dict.get "language"
       (render_js_init_kwargs
          {| kw_options := None; kw_buttons := None; kw_menus := None;
             kw_language := Some "en_GB" |}) = Some (JStr "en_GB")
  /\ JStr "en_GB" <> JStr "en".
Proof. repeat split; try reflexivity. discriminate. Qed.

(** C9.  For a non-empty list of rows the toolbar of the configuration is
    the list that has one string per row, in which the names of a group are
    joined by one space and the groups by [" | "]; without buttons, or with
    an empty list, it is [False].  Neither the options nor the later keys
    change it. *)
Theorem toolbar_flattened (kw : widget_kwargs) :
  (forall buttons, kw_buttons kw = Some buttons -> buttons <> [] ->
     Dict.get "toolbar" (render_js_init_kwargs kw) =
     Some (JList (map (fun row =>
                         JStr (str_join " | " (map (str_join " ") row)))
                    buttons)))
  /\ (kw_buttons kw = None \/ kw_buttons kw = Some [] ->
      Dict.get "toolbar" (render_js_init_kwargs kw) = Some (JBool false)).
Proof.
  rewrite toolbar_kept. split.
  - intros buttons H Hne. rewrite H. destruct buttons; [congruence|reflexivity].
  - intros [H|H]; now rewrite H.
Qed.

Lemma toolbar_flattened_witness :
  Dict.get "toolbar" (render_js_init_kwargs (getDefaultArgs "en")) =
  Some (JList
          [JStr ("undo redo | styleselect | bold italic | "
                 ++ "bullist numlist outdent indent | table | link unlink | "
                 ++ "wagtaildoclink wagtailimage wagtailembed | "
                 ++ "pastetext fullscreen")]).
Proof.
  apply (proj1 (toolbar_flattened (getDefaultArgs "en")) _ eq_refl).
  discriminate.
Defined.

(** ** The empty value *)

(** C10.  When the submitted data has no value under the name of the field,
    [value_from_datadict] returns [None] and leaves the log of calls as it
    is: the converter is not called.  [render] of the value [None] hands
    [None] to the inherited [render] and makes no other call. *)
Theorem none_bypasses_converter
    (to_db from_db : string -> string)
    (super_render : string -> option string -> string)
    (data : Dict.t string) (name : string) (log : list call) :
  Dict.get name data = None ->
  value_from_datadict to_db data name log = (None, log)
  /\ render from_db super_render name None log =
     (super_render name None, log ++ [SuperRender name None]).
Proof.
  intros Habsent. unfold value_from_datadict. rewrite Habsent.
  split; reflexivity.
Qed.

Lemma none_bypasses_converter_witness :
  value_from_datadict (fun html => html) [("title", "x")] "body" [] = (None, [])
  /\ render (fun html => html) (fun _ _ => "<textarea>") "body" None [] =
     ("<textarea>", [SuperRender "body" None]).
Proof.
  exact (none_bypasses_converter (fun html => html) (fun html => html)
           (fun _ _ => "<textarea>") [("title", "x")] "body" [] eq_refl).
Defined.

Example value_converted :
  value_from_datadict (fun html => html) [("body", "<p>x</p>")] "body" [] =
  (Some "<p>x</p>", [ToDatabaseFormat "<p>x</p>"]).
Proof. reflexivity. Qed.

(** ** Further properties of the sanitizer *)

(** X1.  The sanitizer returns on every tree once the fuel covers the
    number of its nodes, also through the walks over live contents that
    unwrapping makes longer, and what it leaves where the node stood has no
    more nodes than the node had. *)
Theorem sanitizer_returns_without_growth (self : DbTinymceWhitelister)
    (fuel : nat) (n : node) :
  node_size n <= fuel ->
  exists o, clean_node self fuel n = Some o
            /\ size_list (splice o) <= node_size n.
Proof. intros Hn. now apply clean_node_total. Qed.

Lemma sanitizer_returns_without_growth_witness :
  exists o, clean_node sample_whitelister 6
              (Tag "a" [("data-linktype", "nope")] false
                 [Tag "span" [] false
                    [NavigableString "x"; Tag "b" [] false []];
                  NavigableString "y"]) = Some o
            /\ size_list (splice o) <= 5.
Proof.
  apply (sanitizer_returns_without_growth sample_whitelister 6
           (Tag "a" [("data-linktype", "nope")] false
              [Tag "span" [] false
                 [NavigableString "x"; Tag "b" [] false []];
               NavigableString "y"])).
  vm_compute. lia.
Defined.

Lemma iterate_snapshot_some_all (P : node -> bool)
    (step : node -> option outcome) (l : list node) :
  (forall c, c ∈ l ->
     exists o, step c = Some o /\ forallb P (splice o) = true) ->
  exists r, iterate_snapshot step l = Some r /\ forallb P r = true.
Proof.
  induction l as [|c l IH]; intros H; simpl.
  - exists []. split; reflexivity.
  - destruct (H c) as (o & Ho & Hp); [left|].
    destruct IH as (r & Hr & Hrp); [intros; apply H; now right|].
    rewrite Ho, Hr. simpl. eexists; split; [reflexivity|].
    rewrite forallb_app. now rewrite Hp, Hrp.
Qed.

(** What holds of strings, of the [embed] elements the embed branch builds,
    of the elements the generic branch keeps and of the links the link
    branch keeps, holds of all that the sanitizer leaves of a tree in which
    the typed links hold strings only. *)
Section CalmInvariant.

Variable self : DbTinymceWhitelister.
Variable P : node -> bool.

Hypothesis P_string : forall s, P (NavigableString s) = true.
Hypothesis P_embed :
  forall embed_type handler tag,
    embed_handlers self !! embed_type = Some handler ->
    P (Tag "embed" (Dict.set "embedtype" embed_type (handler tag)) true [])
    = true.
Hypothesis P_kept :
  forall name attrs e contents rule,
    String.eqb name "div" = false ->
    element_rules self !! name = Some rule ->
    forallb P contents = true ->
    P (Tag name (rule attrs) e contents) = true.
Hypothesis P_link :
  forall attrs e contents link_type handler,
    link_handlers self !! link_type = Some handler ->
    forallb is_string contents = true ->
    P (Tag "a"
         (Dict.set "linktype" link_type (handler (Tag "a" attrs e contents)))
         e contents) = true.

Lemma strings_invariant (l : list node) :
  forallb is_string l = true -> forallb P l = true.
Proof.
  induction l as [|c l IH]; [reflexivity|]. simpl. intros H.
  apply andb_prop in H as [Hc Hl]. rewrite (IH Hl).
  destruct c; try discriminate. now rewrite P_string.
Qed.

Lemma calm_invariant (fuel : nat) :
  forall n : node, node_size n <= fuel -> calm n = true ->
    exists o, clean_node self fuel n = Some o
              /\ forallb P (splice o) = true.
Proof.
  induction fuel as [|fuel IH]; intros n Hn Hcalm.
  - pose proof (node_size_pos n). lia.
  - destruct n as [s|s|name attrs e contents].
    { eexists; split; [reflexivity|]. simpl. now rewrite P_string. }
    { eexists; split; reflexivity. }
    rewrite node_size_tag in Hn. simpl in Hcalm.
    apply andb_prop in Hcalm as [Hlink Hkids].
    rewrite clean_node_tag. unfold clean_tag_node.
    destruct (Dict.get "data-embedtype" attrs) as [embed_type|].
    { destruct (embed_handlers self !! embed_type) as [h|] eqn:Hh;
        eexists; (split; [reflexivity|]); [|reflexivity].
      cbn [splice forallb]. now rewrite (P_embed _ _ _ Hh). }
    assert (Hgeneric : forall name', String.eqb name' "div" = false ->
      exists o, Whitelister_clean_tag_node self (clean_node self fuel)
                  name' attrs e contents = Some o
                /\ forallb P (splice o) = true).
    { intros name' Hdiv. unfold Whitelister_clean_tag_node.
      destruct (iterate_snapshot_some_all P (clean_node self fuel) contents)
        as (r & Hr & Hrp).
      { intros c Hin. apply IH.
        - pose proof (size_list_elem _ _ Hin). lia.
        - rewrite forallb_forall in Hkids. apply Hkids.
          now apply list_elem_of_In. }
      rewrite Hr. cbn [mbind option_bind].
      destruct (element_rules self !! name') as [rule|] eqn:Hrule;
        eexists; (split; [reflexivity|]); [|exact Hrp].
      cbn [splice forallb]. now rewrite (P_kept _ _ _ _ _ Hdiv Hrule Hrp). }
    assert (Hrename :
      String.eqb (if String.eqb name "div" then "p" else name) "div" = false).
    { destruct (String.eqb name "div") eqn:E; [reflexivity|exact E]. }
    destruct (String.eqb name "a") eqn:Ea; [|apply Hgeneric, Hrename].
    destruct (Dict.get "data-linktype" attrs) as [link_type|] eqn:El;
      [|apply Hgeneric, Hrename].
    apply String.eqb_eq in Ea. subst name.
    unfold Dict.contains in Hlink. rewrite El in Hlink. simpl in Hlink.
    destruct (link_walk self fuel contents) as (r & Hr & _ & Hsnap); [lia|].
    assert (Hkept : forall c, c ∈ contents ->
                      clean_node self fuel c = Some (Kept c)).
    { intros c Hin. pose proof (size_list_elem _ _ Hin) as Hs.
      pose proof Hlink as Hall. rewrite forallb_forall in Hall.
      specialize (Hall c (proj1 (list_elem_of_In _ _) Hin)).
      destruct c; try discriminate.
      destruct fuel; [simpl in Hs; lia|reflexivity]. }
    assert (Hsame : r = contents).
    { rewrite (iterate_snapshot_kept _ _ Hkept) in Hsnap.
      symmetry. apply (inj Some), Hsnap.
      intros c Hin. rewrite (Hkept c Hin). eexists; split; reflexivity. }
    subst r. rewrite Hr. cbn [mbind option_bind].
    destruct (link_handlers self !! link_type) as [h|] eqn:Hh;
      eexists; (split; [reflexivity|]).
    + cbn [splice forallb]. now rewrite (P_link _ _ _ _ _ Hh Hlink).
    + now apply strings_invariant.
Qed.

Lemma calm_document_invariant (doc : list node)
    (rule : attributes -> attributes) :
  element_rules self !! "[document]" = Some rule ->
  forallb calm doc = true ->
  exists contents,
    clean_document self doc = Some (Cleaned contents)
    /\ forallb P contents = true.
Proof.
  intros Hroot Hcalm. rewrite clean_document_unfold.
  destruct (iterate_snapshot_some_all P (clean_node self (size_list doc)) doc)
    as (r & Hr & Hrp).
  { intros c Hin. apply calm_invariant.
    - now apply size_list_elem.
    - rewrite forallb_forall in Hcalm. apply Hcalm. now apply list_elem_of_In. }
  exists r. rewrite Hr. cbn [mbind option_bind]. now rewrite Hroot.
Qed.

End CalmInvariant.

(** X2.  On a document in which the typed links hold strings only, and for
    a rule set that has no rule for [embed] and whose rule for [a] drops
    [linktype], the sanitizer returns and its output keeps the invariant of
    the stored format: every [embed] element carries an [embedtype] with a
    registered handler, and every [linktype] on an [a] element has a
    registered handler. *)
Theorem calm_document_stored_ok (self : DbTinymceWhitelister)
    (doc : list node) (rule : attributes -> attributes) :
  element_rules self !! "[document]" = Some rule ->
  element_rules self !! "embed" = None ->
  (forall rule attrs, element_rules self !! "a" = Some rule ->
                      Dict.get "linktype" (rule attrs) = None) ->
  forallb calm doc = true ->
  exists contents,
    clean_document self doc = Some (Cleaned contents)
    /\ forallb (stored_ok self) contents = true.
Proof.
  intros Hroot Hno_embed Hlink Hcalm.
  apply (calm_document_invariant self (stored_ok self)) with (rule := rule);
    try assumption.
  - reflexivity.
  - intros embed_type handler tag Hh. cbn [stored_ok forallb].
    change (String.eqb "embed" "embed") with true.
    change (String.eqb "embed" "a") with false. cbv beta iota.
    now rewrite Dict_get_set_eq, Hh.
  - intros name attrs e contents r Hdiv Hrule Hall. cbn [stored_ok].
    rewrite Hall, andb_true_r. apply andb_true_intro. split.
    + destruct (String.eqb name "embed") eqn:E; [|reflexivity].
      apply String.eqb_eq in E. subst. congruence.
    + destruct (String.eqb name "a") eqn:E; [|reflexivity].
      apply String.eqb_eq in E. subst. now rewrite (Hlink r attrs Hrule).
  - intros attrs e contents link_type handler Hh Hstr. cbn [stored_ok].
    change (String.eqb "a" "embed") with false.
    change (String.eqb "a" "a") with true. cbv beta iota.
    rewrite Dict_get_set_eq, Hh. cbn [andb].
    clear -Hstr. induction contents as [|c l IH]; [reflexivity|].
    simpl in Hstr. apply andb_prop in Hstr as [Hc Hl].
    destruct c; try discriminate. simpl. now apply IH.
Qed.

Lemma calm_document_stored_ok_witness :
  exists contents,
    clean_document sample_whitelister
      [Tag "p" [] false
         [Tag "a" [("data-linktype", "page"); ("data-id", "7")] false
            [NavigableString "Home"];
          Tag "a" [("linktype", "stale")] false [NavigableString "old"];
          Tag "embed" [("embedtype", "stale")] true [];
          editor_image]] = Some (Cleaned contents)
    /\ forallb (stored_ok sample_whitelister) contents = true.
Proof.
  apply (calm_document_stored_ok sample_whitelister _ allow_without_attributes
           eq_refl (proj1 sample_whitelister_strict)
           (proj2 sample_whitelister_strict)).
  reflexivity.
Defined.

(** X3.  On a document in which the typed links hold strings only, the
    sanitizer returns, and every element of its output is an [embed], has a
    rule in the rule set, or is an [a] with [linktype]; no comment and no
    [div] is left. *)
Theorem calm_document_whitelisted (self : DbTinymceWhitelister)
    (doc : list node) (rule : attributes -> attributes) :
  element_rules self !! "[document]" = Some rule ->
  forallb calm doc = true ->
  exists contents,
    clean_document self doc = Some (Cleaned contents)
    /\ forallb (whitelisted self) contents = true.
Proof.
  intros Hroot Hcalm.
  apply (calm_document_invariant self (whitelisted self)) with (rule := rule);
    try assumption.
  - reflexivity.
  - reflexivity.
  - intros name attrs e contents r Hdiv Hrule Hall. cbn [whitelisted].
    rewrite Hdiv, Hrule, Hall, orb_true_r. reflexivity.
  - intros attrs e contents link_type handler Hh Hstr. cbn [whitelisted].
    unfold Dict.contains. rewrite Dict_get_set_eq.
    change (String.eqb "a" "div") with false.
    change (String.eqb "a" "a") with true.
    cbn [negb andb]. rewrite orb_true_r. cbn [andb].
    clear -Hstr. induction contents as [|c l IH]; [reflexivity|].
    simpl in Hstr. apply andb_prop in Hstr as [Hc Hl].
    destruct c; try discriminate. simpl. now apply IH.
Qed.

Lemma calm_document_whitelisted_witness :
  exists contents,
    clean_document sample_whitelister
      [Comment "c";
       Tag "div" [("class", "x")] false
         [Tag "script" [] false [NavigableString "s"];
          Tag "a" [("data-linktype", "page"); ("data-id", "7")] false
            [NavigableString "Home"];
          editor_image]] = Some (Cleaned contents)
    /\ forallb (whitelisted sample_whitelister) contents = true.
Proof.
  apply (calm_document_whitelisted sample_whitelister _
           allow_without_attributes); reflexivity.
Defined.

(** *** No text is made up *)

Lemma strings_list_app (a b : list node) :
  strings_list (a ++ b) = strings_list a ++ strings_list b.
Proof. unfold strings_list. apply flat_map_app. Qed.

Lemma strings_list_single (n : node) : strings_list [n] = strings n.
Proof. unfold strings_list. simpl. apply app_nil_r. Qed.

Lemma iterate_snapshot_strings (step : node -> option outcome)
    (l r : list node) :
  (forall c o, step c = Some o ->
     incl (strings_list (splice o)) (strings c)) ->
  iterate_snapshot step l = Some r ->
  incl (strings_list r) (strings_list l).
Proof.
  intros H. revert r. induction l as [|c l IH]; intros r Hr; simpl in Hr.
  - inversion Hr. apply incl_refl.
  - destruct (step c) as [o|] eqn:Ho; simpl in Hr; [|discriminate].
    destruct (iterate_snapshot step l) as [r'|]; simpl in Hr; [|discriminate].
    inversion Hr; subst. rewrite (strings_list_app (splice o) r').
    change (c :: l) with ([c] ++ l).
    rewrite (strings_list_app [c] l), strings_list_single.
    apply incl_app; [apply incl_appl, (H c o Ho)|apply incl_appr, IH; reflexivity].
Qed.

Lemma iterate_live_strings (step : node -> option outcome) :
  (forall c o, step c = Some o ->
     incl (strings_list (splice o)) (strings c)) ->
  forall (gas i : nat) (l r : list node),
    iterate_live step gas i l = Some r ->
    incl (strings_list r) (strings_list l).
Proof.
  intros H. induction gas as [|gas IH]; intros i l r Hr; simpl in Hr.
  - destruct (l !! i); [discriminate|]. inversion Hr. apply incl_refl.
  - destruct (l !! i) as [c|] eqn:E; [|inversion Hr; apply incl_refl].
    destruct (step c) as [o|] eqn:Ho; simpl in Hr; [|discriminate].
    apply (incl_tran (IH _ _ _ Hr)).
    assert (Hsplit : strings_list l =
              strings_list (take i l) ++ strings c
                ++ strings_list (drop (S i) l)).
    { rewrite <- (take_drop i l) at 1. rewrite (drop_S _ _ _ E).
      change (c :: drop (S i) l) with ([c] ++ drop (S i) l).
      now rewrite (strings_list_app (take i l) ([c] ++ drop (S i) l)),
        (strings_list_app [c] (drop (S i) l)), strings_list_single. }
    rewrite Hsplit.
    rewrite (strings_list_app (take i l) (splice o ++ drop (S i) l)),
      (strings_list_app (splice o) (drop (S i) l)).
    apply incl_app; [apply incl_appl, incl_refl|].
    apply incl_appr, incl_app;
      [apply incl_appl, (H c o Ho)|apply incl_appr, incl_refl].
Qed.

(** X4.  The sanitizer makes up no text: every string of what it leaves
    where a node stood is a string of that node, whatever the rules and the
    handlers, and also where a walk over live contents visits a node
    twice. *)
Theorem sanitizer_adds_no_text (self : DbTinymceWhitelister) (fuel : nat) :
  forall (n : node) (o : outcome),
    clean_node self fuel n = Some o ->
    incl (strings_list (splice o)) (strings n).
Proof.
  induction fuel as [|fuel IH]; intros n o Ho; [discriminate|].
  destruct n as [s|s|name attrs e contents].
  - inversion Ho. simpl splice. rewrite strings_list_single. apply incl_refl.
  - inversion Ho. apply incl_nil_l.
  - rewrite clean_node_tag in Ho. unfold clean_tag_node in Ho.
    destruct (Dict.get "data-embedtype" attrs) as [embed_type|].
    { destruct (embed_handlers self !! embed_type); inversion Ho;
        apply incl_nil_l. }
    assert (Hgeneric : forall name',
      Whitelister_clean_tag_node self (clean_node self fuel)
        name' attrs e contents = Some o ->
      incl (strings_list (splice o)) (strings (Tag name attrs e contents))).
    { intros name'. unfold Whitelister_clean_tag_node.
      destruct (iterate_snapshot (clean_node self fuel) contents) as [r|] eqn:Hr;
        cbn [mbind option_bind]; [|discriminate].
      pose proof (iterate_snapshot_strings _ _ _ IH Hr) as Hincl.
      destruct (element_rules self !! name'); intros Hres; inversion Hres;
        subst; simpl splice; [rewrite strings_list_single|]; exact Hincl. }
    destruct (String.eqb name "a"); [|exact (Hgeneric _ Ho)].
    destruct (Dict.get "data-linktype" attrs) as [link_type|];
      [|exact (Hgeneric _ Ho)].
    destruct (iterate_live (clean_node self fuel) fuel 0 contents) as [r|] eqn:Hr;
      cbn [mbind option_bind] in Ho; [|discriminate].
    pose proof (iterate_live_strings _ IH _ _ _ _ Hr) as Hincl.
    destruct (link_handlers self !! link_type); inversion Ho; subst;
      simpl splice; [rewrite strings_list_single|]; exact Hincl.
Qed.

Lemma sanitizer_adds_no_text_witness :
  incl (strings_list
          (splice (Unwrapped
                     [NavigableString "x";
                      Tag "b" [] false [NavigableString "z"];
                      NavigableString "y"])))
       (strings link_over_text).
Proof.
  apply (sanitizer_adds_no_text sample_whitelister 8 link_over_text).
  reflexivity.
Defined.

Example link_over_text_strings :
  strings link_over_text = ["x"; "z"; "gone"; "y"]
  /\ strings_list
       (splice (Unwrapped
                  [NavigableString "x";
                   Tag "b" [] false [NavigableString "z"];
                   NavigableString "y"])) = ["x"; "z"; "y"].
Proof. split; reflexivity. Qed.

(** X5.  [to_database_format] returns a document for every list of features
    and every parsed input: the rule for the document object is among the
    rules that are always active, so the document object is never unwrapped
    and no [ValueError] is raised; the output has no more nodes than the
    input. *)
Theorem to_database_format_returns
    (check_url : string -> option string)
    (PageLinkHandler : node -> attributes)
    (image_rules document_rules : list Rule) (defaults : list string)
    (features : option (list string)) (doc : list node) :
  exists contents,
    to_database_format check_url PageLinkHandler image_rules document_rules
      defaults features doc = Some (Cleaned contents)
    /\ size_list contents <= size_list doc.
Proof.
  unfold to_database_format, whitelister.
  set (rules := converter_rules _ _ _ _ _ _).
  rewrite clean_document_unfold.
  destruct (iterate_snapshot_total
              (clean_node (DbWhitelister_init rules) (size_list doc)) doc)
    as (r & Hr & Hrs).
  { intros c Hin. apply clean_node_total. now apply size_list_elem. }
  exists r. rewrite Hr. cbn [mbind option_bind].
  destruct (base_rules_kept rules "[document]") as (rule & Hrule);
    [eexists; reflexivity|].
  rewrite Hrule. split; [reflexivity|exact Hrs].
Qed.

(** ** The rules of the repository *)

Lemma element_rules_last (rules : list Rule) (name : string) :
  element_rules (DbWhitelister_init rules) !! name =
  match last_whitelist_rule name rules with
  | Some handler => Some handler
  | None => BASE_WHITELIST_RULES !! name
  end.
Proof.
  unfold DbWhitelister_init. simpl element_rules.
  generalize BASE_WHITELIST_RULES as m.
  induction rules as [|rule rest IH]; intros m; [reflexivity|].
  simpl foldl. rewrite IH. simpl last_whitelist_rule.
  destruct (last_whitelist_rule name rest); [reflexivity|].
  destruct rule as [element handler| |]; try reflexivity.
  destruct (String.eqb element name) eqn:E.
  - apply String.eqb_eq in E. subst. apply lookup_insert_eq.
  - apply String.eqb_neq in E. now apply lookup_insert_ne.
Qed.

Lemma last_whitelist_rule_app (name : string) (r1 r2 : list Rule) :
  last_whitelist_rule name (r1 ++ r2) =
  match last_whitelist_rule name r2 with
  | Some handler => Some handler
  | None => last_whitelist_rule name r1
  end.
Proof.
  induction r1 as [|rule r1 IH]; simpl.
  - destruct (last_whitelist_rule name r2); reflexivity.
  - rewrite IH. destruct (last_whitelist_rule name r2); reflexivity.
Qed.

Lemma type_rules_whitelist_nothing (name : string) (rules : list Rule) :
  forallb type_rule rules = true -> last_whitelist_rule name rules = None.
Proof.
  induction rules as [|rule rest IH]; [reflexivity|]. simpl. intros H.
  apply andb_prop in H as [Hrule Hrest]. rewrite (IH Hrest).
  destruct rule; [discriminate|reflexivity|reflexivity].
Qed.

Section RegistryFacts.

Variable check_url : string -> option string.
Variable PageLinkHandler : node -> attributes.
Variable image_rules document_rules : list Rule.
Variable defaults : list string.

Let rules_of (feature : string) : list Rule :=
  match get_converter_rule check_url PageLinkHandler image_rules
          document_rules feature with
  | Some rule => rule
  | None => []
  end.

Let rules (features : option (list string)) : list Rule :=
  converter_rules check_url PageLinkHandler image_rules document_rules
    defaults features.

Lemma converter_rules_foldl (acc : list Rule) (features : list string) :
  foldl (fun rules feature =>
           match get_converter_rule check_url PageLinkHandler image_rules
                   document_rules feature with
           | Some rule => rules ++ rule
           | None => rules
           end) acc features =
  acc ++ concat (map rules_of features).
Proof.
  revert acc. induction features as [|f fs IH]; intros acc; simpl.
  - now rewrite app_nil_r.
  - rewrite IH. unfold rules_of.
    destruct (get_converter_rule _ _ _ _ f); simpl.
    + now rewrite app_assoc.
    + reflexivity.
Qed.

Lemma converter_rules_concat (features : list string) :
  rules (Some features) = concat (map rules_of features).
Proof. unfold rules, converter_rules. now rewrite converter_rules_foldl. Qed.

(** X6.  The converter rules follow the features in their order: the rules
    of two lists of features are the rules of the first followed by the
    rules of the second; a feature without registered rule adds nothing,
    wherever it stands; no feature gives no rule. *)
Theorem converter_rules_follow_features :
  (forall fs1 fs2,
     rules (Some (fs1 ++ fs2)) = rules (Some fs1) ++ rules (Some fs2))
  /\ (forall fs1 f fs2,
        get_converter_rule check_url PageLinkHandler image_rules
          document_rules f = None ->
        rules (Some (fs1 ++ f :: fs2)) = rules (Some (fs1 ++ fs2)))
  /\ rules (Some []) = [].
Proof.
  split; [|split; [|reflexivity]].
  - intros fs1 fs2. rewrite !converter_rules_concat.
    now rewrite map_app, concat_app.
  - intros fs1 f fs2 Hf. rewrite !converter_rules_concat.
    rewrite !map_app, !concat_app. simpl. unfold rules_of at 2.
    now rewrite Hf.
Qed.

Lemma table_tag_rule (feature tag : string) :
  forallb type_rule image_rules = true ->
  forallb type_rule document_rules = true ->
  In tag table_tags ->
  last_whitelist_rule tag (rules_of feature) =
  if String.eqb "table" feature then Some default_attribute_rule else None.
Proof.
  intros Himage Hdocument Htag.
  pose proof (type_rules_whitelist_nothing tag _ Himage) as Hi.
  pose proof (type_rules_whitelist_nothing tag _ Hdocument) as Hd.
  unfold rules_of, get_converter_rule, register_tinymce_features.
  cbn [map app Dict.get].
  repeat match goal with
         | |- context [String.eqb feature ?s] =>
             let E := fresh "E" in
             destruct (String.eqb feature s) eqn:E;
             [apply String.eqb_eq in E; subst feature|]
         end;
    try (simpl in Htag;
         repeat (destruct Htag as [<-|Htag]; [reflexivity|]);
         contradiction);
    try (rewrite ?Hi, ?Hd; reflexivity).
  destruct (String.eqb "table" feature) eqn:Etable; [|reflexivity].
  apply String.eqb_eq in Etable. subst feature.
  match goal with
  | H : String.eqb "table" "table" = false |- _ =>
      rewrite String.eqb_refl in H; discriminate H
  end.
Qed.

Lemma table_rule_lookup (features : option (list string)) (tag : string) :
  forallb type_rule image_rules = true ->
  forallb type_rule document_rules = true ->
  In tag table_tags ->
  element_rules
    (whitelister check_url PageLinkHandler image_rules document_rules
       defaults features) !! tag =
  if existsb (String.eqb "table")
       (match features with
        | Some features => features
        | None => default_features defaults
        end)
  then Some default_attribute_rule
  else None.
Proof.
  intros Himage Hdocument Htag. unfold whitelister.
  rewrite element_rules_last.
  assert (Hrules : forall fs,
    last_whitelist_rule tag (concat (map rules_of fs)) =
    if existsb (String.eqb "table") fs
    then Some default_attribute_rule else None).
  { induction fs as [|f fs IH]; [reflexivity|]. cbn [map concat existsb].
    rewrite last_whitelist_rule_app, IH.
    destruct (existsb (String.eqb "table") fs);
      [now rewrite orb_true_r|].
    rewrite orb_false_r. now apply table_tag_rule. }
  assert (Hbase : BASE_WHITELIST_RULES !! tag = None).
  { simpl in Htag.
    repeat (destruct Htag as [<-|Htag]; [reflexivity|]). contradiction. }
  destruct features as [fs|].
  - fold (rules (Some fs)). rewrite converter_rules_concat, Hrules.
    destruct (existsb _ fs); [reflexivity|exact Hbase].
  - unfold converter_rules. rewrite converter_rules_foldl. simpl app.
    rewrite Hrules.
    destruct (existsb _ (default_features defaults)); [reflexivity|exact Hbase].
Qed.

(** X7.  When the rule lists of the image and document applications hold
    rules for types only, an element of a table ([table], [caption],
    [tbody], [th], [tr], [td]) has a rule exactly when the feature [table]
    is among the features, and then the rule is the table attribute rule,
    wherever [table] stands among the features. *)
Theorem table_tags_follow_feature (features : list string) (tag : string) :
  forallb type_rule image_rules = true ->
  forallb type_rule document_rules = true ->
  In tag table_tags ->
  element_rules
    (whitelister check_url PageLinkHandler image_rules document_rules
       defaults (Some features)) !! tag =
  if existsb (String.eqb "table") features
  then Some default_attribute_rule
  else None.
Proof. intros. now apply (table_rule_lookup (Some features)). Qed.


End RegistryFacts.

Lemma converter_rules_follow_features_witness :
  converter_rules Some id_handler [EmbedTypeRule "image" id_handler]
    [LinkTypeRule "document" id_handler] []
    (Some (["bold"] ++ "no-such-feature" :: ["br"])) =
  converter_rules Some id_handler [EmbedTypeRule "image" id_handler]
    [LinkTypeRule "document" id_handler] [] (Some (["bold"] ++ ["br"])).
Proof.
  apply (proj1 (proj2 (converter_rules_follow_features Some id_handler
                         [EmbedTypeRule "image" id_handler]
                         [LinkTypeRule "document" id_handler] []))).
  reflexivity.
Defined.

Lemma table_tags_follow_feature_witness :
  element_rules
    (whitelister Some id_handler [EmbedTypeRule "image" id_handler]
       [LinkTypeRule "document" id_handler] []
       (Some ["table"; "bold"; "image"])) !! "td" =
  Some default_attribute_rule.
Proof.
  apply (table_tags_follow_feature Some id_handler
           [EmbedTypeRule "image" id_handler]
           [LinkTypeRule "document" id_handler] []
           ["table"; "bold"; "image"] "td");
    [reflexivity|reflexivity|simpl; tauto].
Defined.


(** *** The attributes of a table *)

Lemma Dict_get_keep_all (names : list string) (k : string) :
  Dict.get k (map (fun name => (name, KeepAttr)) names) =
  if existsb (String.eqb k) names then Some KeepAttr else None.
Proof.
  induction names as [|name names IH]; [reflexivity|]. simpl.
  destruct (String.eqb k name); [reflexivity|exact IH].
Qed.

Lemma ALLOWED_ATTR_get (k : string) :
  Dict.get k ALLOWED_ATTR = if allowed_attr k then Some KeepAttr else None.
Proof.
  unfold allowed_attr, ALLOWED_ATTR. rewrite map_map. cbn [fst].
  rewrite map_id. apply Dict_get_keep_all.
Qed.

Lemma attribute_rule_cons (allowed_attrs : Dict.t attr_rule)
    (k v : string) (attrs : attributes) :
  attribute_rule allowed_attrs ((k, v) :: attrs) =
  match Dict.get k allowed_attrs with
  | Some KeepAttr => (k, v) :: attribute_rule allowed_attrs attrs
  | Some (Callable f) =>
      match f v with
      | Some new_val => (k, new_val) :: attribute_rule allowed_attrs attrs
      | None => attribute_rule allowed_attrs attrs
      end
  | None => attribute_rule allowed_attrs attrs
  end.
Proof.
  unfold attribute_rule. simpl.
  destruct (Dict.get k allowed_attrs) as [[|f]|]; try reflexivity.
  destruct (f v); reflexivity.
Qed.

Lemma default_attribute_rule_filter (attrs : attributes) :
  default_attribute_rule attrs =
  List.filter (fun kv => allowed_attr (fst kv)) attrs.
Proof.
  unfold default_attribute_rule.
  induction attrs as [|[k v] attrs IH]; [reflexivity|].
  rewrite attribute_rule_cons, ALLOWED_ATTR_get.
  change (List.filter (fun kv => allowed_attr (fst kv)) ((k, v) :: attrs))
    with (if allowed_attr k
          then (k, v) :: List.filter (fun kv => allowed_attr (fst kv)) attrs
          else List.filter (fun kv => allowed_attr (fst kv)) attrs).
  destruct (allowed_attr k); now rewrite IH.
Qed.

Lemma Dict_get_filter {V : Type} (p : string -> bool) (k : string)
    (d : Dict.t V) :
  Dict.get k (List.filter (fun kv => p (fst kv)) d) =
  if p k then Dict.get k d else None.
Proof.
  induction d as [|[k' v] d IH]; simpl; [now destruct (p k)|].
  destruct (p k') eqn:Hk'; simpl.
  - destruct (String.eqb k k') eqn:E; [|exact IH].
    apply String.eqb_eq in E. subst. now rewrite Hk'.
  - rewrite IH. destruct (String.eqb k k') eqn:E; [|reflexivity].
    apply String.eqb_eq in E. subst. now rewrite Hk'.
Qed.

(** X8.  The table attribute rule keeps the attributes whose name is one of
    the eighteen of [ALLOWED_ATTR], with their values and in their order,
    and drops every other attribute; applying it twice is applying it
    once. *)
Theorem default_attribute_rule_keeps_allowed (attrs : attributes) :
  default_attribute_rule attrs =
    List.filter (fun kv => allowed_attr (fst kv)) attrs
  /\ (forall k, Dict.get k (default_attribute_rule attrs) =
                if allowed_attr k then Dict.get k attrs else None)
  /\ default_attribute_rule (default_attribute_rule attrs) =
     default_attribute_rule attrs.
Proof.
  split; [apply default_attribute_rule_filter|]. split.
  - intros k. rewrite default_attribute_rule_filter. apply Dict_get_filter.
  - rewrite !default_attribute_rule_filter.
    induction attrs as [|[k v] attrs IH]; [reflexivity|]. simpl.
    destruct (allowed_attr k) eqn:E; simpl; [rewrite E, IH|]; auto.
Qed.




Example table_cell_sample :
  clean_node
    (whitelister Some id_handler [EmbedTypeRule "image" id_handler]
       [LinkTypeRule "document" id_handler] [] (Some ["table"])) 2
    (Tag "td" [("onclick", "x()"); ("colspan", "2"); ("id", "c")] false
       [NavigableString "1"]) =
  Some (Kept (Tag "td" [("colspan", "2")] false [NavigableString "1"])).
Proof. reflexivity. Qed.

(** ** The two directions know the same types *)

Lemma rewriter_rules_foldl
    (expand : (node -> attributes) -> attributes -> string)
    (rules : list Rule) (t : string) :
  forall (m1 : gmap string (attributes -> string))
         (m2 : gmap string (node -> attributes)),
    m1 !! t = expand <$> m2 !! t ->
    foldl (fun embed_rules rule =>
             match rule with
             | EmbedTypeRule embed_type handler =>
                 <[embed_type := expand handler]> embed_rules
             | _ => embed_rules
             end) m1 rules !! t =
    expand <$>
      foldl (fun m r =>
               match r with
               | EmbedTypeRule embed_type handler => <[embed_type := handler]> m
               | _ => m
               end) m2 rules !! t.
Proof.
  induction rules as [|rule rest IH]; intros m1 m2 Hm; [exact Hm|].
  simpl. apply IH. destruct rule as [| embed_type handler |]; try exact Hm.
  rewrite !lookup_insert. case_decide; [reflexivity|exact Hm].
Qed.

Lemma rewriter_link_rules_foldl
    (expand : (node -> attributes) -> attributes -> string)
    (rules : list Rule) (t : string) :
  forall (m1 : gmap string (attributes -> string))
         (m2 : gmap string (node -> attributes)),
    m1 !! t = expand <$> m2 !! t ->
    foldl (fun link_rules rule =>
             match rule with
             | LinkTypeRule link_type handler =>
                 <[link_type := expand handler]> link_rules
             | _ => link_rules
             end) m1 rules !! t =
    expand <$>
      foldl (fun m r =>
               match r with
               | LinkTypeRule link_type handler => <[link_type := handler]> m
               | _ => m
               end) m2 rules !! t.
Proof.
  induction rules as [|rule rest IH]; intros m1 m2 Hm; [exact Hm|].
  simpl. apply IH. destruct rule as [| | link_type handler]; try exact Hm.
  rewrite !lookup_insert. case_decide; [reflexivity|exact Hm].
Qed.

(** X11.  The rewriter of the stored format and the sanitizer are built
    from the same converter rules and know the same types: under every type
    of embed, and under every type of link, the rewriter holds the
    [expand_db_attributes] of the very handler whose [get_db_attributes] the
    sanitizer holds, so a type is expanded exactly when it is accepted. *)
Theorem rewriter_and_sanitizer_agree
    (expand : (node -> attributes) -> attributes -> string)
    (rules : list Rule) (t : string) :
  snd (html_rewriter expand rules) !! t =
    expand <$> embed_handlers (DbWhitelister_init rules) !! t
  /\ fst (html_rewriter expand rules) !! t =
     expand <$> link_handlers (DbWhitelister_init rules) !! t
  /\ (is_Some (snd (html_rewriter expand rules) !! t) <->
      is_Some (embed_handlers (DbWhitelister_init rules) !! t))
  /\ (is_Some (fst (html_rewriter expand rules) !! t) <->
      is_Some (link_handlers (DbWhitelister_init rules) !! t)).
Proof.
  assert (He : snd (html_rewriter expand rules) !! t =
               expand <$> embed_handlers (DbWhitelister_init rules) !! t).
  { apply rewriter_rules_foldl. now rewrite !lookup_empty. }
  assert (Hl : fst (html_rewriter expand rules) !! t =
               expand <$> link_handlers (DbWhitelister_init rules) !! t).
  { apply rewriter_link_rules_foldl. now rewrite !lookup_empty. }
  split; [exact He|]. split; [exact Hl|].
  rewrite He, Hl. split; apply fmap_is_Some.
Qed.

(** ** Further properties of the client configuration *)

Lemma menubar_kept (kw : widget_kwargs) :
  Dict.get "menubar" (render_js_init_kwargs kw) =
  Some (match kw_menus kw with
        | Some ((_ :: _) as menus) => JStr (str_join " " menus)
        | _ => JBool false
        end).
Proof.
  unfold render_js_init_kwargs.
  destruct (kw_language kw) as [language|];
    [destruct (String.eqb language "" || String.eqb language "en_US")|];
    (rewrite Dict_get_set_ne by discriminate);
    (destruct (kw_menus kw) as [[|m ms]|]; now rewrite Dict_get_set_eq).
Qed.

(** X12.  For a non-empty list of menus the menu bar of the configuration
    is their names joined by one space; without menus, with [False] or with
    an empty list, it is [False].  Neither the options nor the language
    change it. *)
Theorem menubar_joined (kw : widget_kwargs) :
  (forall menus, kw_menus kw = Some menus -> menus <> [] ->
     Dict.get "menubar" (render_js_init_kwargs kw) =
     Some (JStr (str_join " " menus)))
  /\ (kw_menus kw = None \/ kw_menus kw = Some [] ->
      Dict.get "menubar" (render_js_init_kwargs kw) = Some (JBool false)).
Proof.
  rewrite menubar_kept. split.
  - intros menus H Hne. rewrite H. destruct menus; [congruence|reflexivity].
  - intros [H|H]; now rewrite H.
Qed.

Lemma menubar_joined_witness :
  Dict.get "menubar"
    (render_js_init_kwargs
       {| kw_options := Some [("menubar", JBool true)]; kw_buttons := None;
          kw_menus := Some ["edit"; "view"]; kw_language := None |}) =
  Some (JStr "edit view").
Proof.
  apply (proj1 (menubar_joined
                  {| kw_options := Some [("menubar", JBool true)];
                     kw_buttons := None; kw_menus := Some ["edit"; "view"];
                     kw_language := None |}) _ eq_refl).
  discriminate.
Defined.

(** X13.  The options reach the configuration as they are under every key
    but [toolbar], [menubar] and [language]; under these three keys the
    configuration is what it is without options. *)
Theorem options_pass_through (kw : widget_kwargs) (k : string) :
  (k <> "toolbar" -> k <> "menubar" -> k <> "language" ->
   Dict.get k (render_js_init_kwargs kw) =
   match kw_options kw with
   | Some options => Dict.get k options
   | None => None
   end)
  /\ (k = "toolbar" \/ k = "menubar" \/ k = "language" ->
      Dict.get k (render_js_init_kwargs kw) =
      Dict.get k (render_js_init_kwargs
                    {| kw_options := None; kw_buttons := kw_buttons kw;
                       kw_menus := kw_menus kw;
                       kw_language := kw_language kw |})).
Proof.
  split.
  - intros Ht Hm Hl. unfold render_js_init_kwargs.
    destruct (kw_language kw) as [language|];
      [destruct (String.eqb language "" || String.eqb language "en_US")|];
      (rewrite Dict_get_set_ne by assumption);
      (destruct (kw_menus kw) as [[|m ms]|];
       rewrite Dict_get_set_ne by assumption);
      (destruct (kw_buttons kw) as [[|b bs]|];
       rewrite Dict_get_set_ne by assumption);
      destruct (kw_options kw) as [[|o os]|]; reflexivity.
  - intros [->|[->| ->]].
    + now rewrite !toolbar_kept.
    + now rewrite !menubar_kept.
    + unfold render_js_init_kwargs. cbn [kw_language].
      destruct (kw_language kw) as [language|];
        [destruct (String.eqb language "" || String.eqb language "en_US")|];
        now rewrite !Dict_get_set_eq.
Qed.

Lemma options_pass_through_witness :
  Dict.get "browser_spellcheck" (render_js_init_kwargs (getDefaultArgs "fr")) =
  match kw_options (getDefaultArgs "fr") with
  | Some options => Dict.get "browser_spellcheck" options
  | None => None
  end.
Proof.
  apply (proj1 (options_pass_through (getDefaultArgs "fr")
                  "browser_spellcheck")); discriminate.
Defined.

(** X14.  With the default arguments the language of the configuration is
    [en] for every locale: the locale that [getDefaultArgs] puts into the
    options is replaced, since no language is configured beside the
    options. *)
Theorem default_language_is_en (locale : string) :
  (exists options,
     kw_options (getDefaultArgs locale) = Some options
     /\ Dict.get "language" options = Some (JStr locale))
  /\ Dict.get "language" (render_js_init_kwargs (getDefaultArgs locale)) =
     Some (JStr "en").
Proof.
  split; [eexists; split; reflexivity|].
  unfold render_js_init_kwargs. cbn [kw_language getDefaultArgs].
  apply Dict_get_set_eq.
Qed.

(** ** Values that are present *)

(** X15.  Only [None] goes past the converter.  A value that the submitted
    data holds under the name of the field, the empty string too, is handed
    to [to_database_format] once and the result of the conversion is
    returned; a value that is rendered, the empty string too, is handed to
    [from_database_format] once, before the one call of the inherited
    [render], which receives the converted value. *)
Theorem present_value_is_converted
    (to_db from_db : string -> string)
    (super_render : string -> option string -> string)
    (data : Dict.t string) (name value : string) (log : list call) :
  Dict.get name data = Some value ->
  value_from_datadict to_db data name log =
    (Some (to_db value), log ++ [ToDatabaseFormat value])
  /\ render from_db super_render name (Some value) log =
     (super_render name (Some (from_db value)),
      log ++ [FromDatabaseFormat value;
              SuperRender name (Some (from_db value))]).
Proof.
  intros Hpresent. unfold value_from_datadict. rewrite Hpresent.
  split; [reflexivity|].
  unfold render, call_from_database_format, call_super_render, bind, emit, ret.
  now rewrite <- app_assoc.
Qed.

Lemma present_value_is_converted_witness :
  value_from_datadict (fun html => "<p>" ++ html ++ "</p>")%string
    [("body", "")] "body" [] =
    (Some "<p></p>", [ToDatabaseFormat ""])
  /\ render (fun html => html) (fun _ _ => "<textarea>") "body" (Some "") [] =
     ("<textarea>", [FromDatabaseFormat ""; SuperRender "body" (Some "")]).
Proof.
  exact (present_value_is_converted (fun html => "<p>" ++ html ++ "</p>")%string
           (fun html => html) (fun _ _ => "<textarea>")
           [("body", "")] "body" "" [] eq_refl).
Defined.

(** The stored form of a typed link goes the way of the stored form of an
    image: sanitized again, it takes the generic path and the rule for [a]
    drops [linktype] and [id]. *)
Example sanitizing_stored_link_strips_it :
  clean_document sample_whitelister
    [Tag "a" [("id", "7"); ("linktype", "page")] false [NavigableString "Home"]]
  = Some (Cleaned [Tag "a" [] false [NavigableString "Home"]]).
Proof. reflexivity. Qed.
